(** * FileOrganizer: a shallow embedding of [file_organizer.py]

    The development follows the Python module top to bottom:
    the pieces of the standard library it calls ([str.lower], [pathlib],
    [datetime.strftime], [Path.mkdir], [shutil.move]) are modelled first,
    then the table [FILE_CATEGORIES], the class [FileOrganizer] with its
    three methods, and finally the properties of the specification. *)

From Stdlib Require Import String Ascii List Bool Arith Lia Sorted Permutation.
Import ListNotations.
Local Open Scope string_scope.
Local Open Scope list_scope.
Local Open Scope nat_scope.

(* ===================================================================== *)
(** ** Python strings *)
(* ===================================================================== *)

Module Str.

(** [str.lower] on the ASCII range: 'A'..'Z' become 'a'..'z', every other
    byte is kept. *)
Definition lower_ascii (c : ascii) : ascii :=
  let n := nat_of_ascii c in
  if (65 <=? n) && (n <=? 90) then ascii_of_nat (n + 32) else c.

Fixpoint lower (s : string) : string :=
  match s with
  | EmptyString => EmptyString
  | String c s' => String (lower_ascii c) (lower s')
  end.

(** [s.rfind(c)]: index of the last occurrence, [None] for Python's -1. *)
Fixpoint rfind (c : ascii) (s : string) : option nat :=
  match s with
  | EmptyString => None
  | String a s' =>
      match rfind c s' with
      | Some i => Some (S i)
      | None => if Ascii.eqb a c then Some 0 else None
      end
  end.

(** The slices [s[:i]] and [s[i:]]. *)
Fixpoint take (i : nat) (s : string) : string :=
  match i, s with
  | S i', String a s' => String a (take i' s')
  | _, _ => EmptyString
  end.

Fixpoint drop (i : nat) (s : string) : string :=
  match i, s with
  | S i', String _ s' => drop i' s'
  | _, _ => s
  end.

(** [x in xs] for a list of strings. *)
Definition mem (x : string) (xs : list string) : bool :=
  existsb (String.eqb x) xs.

End Str.

(* ===================================================================== *)
(** ** pathlib: pure paths *)
(* ===================================================================== *)

(** A path is the list of its components, outermost first. *)
Definition path := list string.

Definition path_eq_dec : forall p q : path, {p = q} + {p <> q} :=
  list_eq_dec string_dec.

Definition path_eqb (p q : path) : bool :=
  if path_eq_dec p q then true else false.

Module Path.

(** [p / child] *)
Definition join (p : path) (child : string) : path := p ++ [child].

(** [p.name]: the final component. *)
Definition name (p : path) : string := last p "".

(** [p.parent] *)
Definition parent (p : path) : path := removelast p.

(** The position of the dot that starts the suffix:
    [i = name.rfind('.')] when [0 < i < len(name) - 1]. *)
Definition suffix_index (nm : string) : option nat :=
  match Str.rfind "."%char nm with
  | Some i => if (0 <? i) && (i <? String.length nm - 1) then Some i else None
  | None => None
  end.

(** [p.suffix]: [name[i:]], or the empty string. *)
Definition suffix (p : path) : string :=
  match suffix_index (name p) with
  | Some i => Str.drop i (name p)
  | None => ""
  end.

(** [p.stem]: [name[:i]], or the whole name. *)
Definition stem (p : path) : string :=
  match suffix_index (name p) with
  | Some i => Str.take i (name p)
  | None => name p
  end.

(** [str(p)] *)
Definition str (p : path) : string := String.concat "/" p.

(** The pieces of a text between separators, [current] being the piece
    read so far. *)
Fixpoint pieces (text current : string) : list string :=
  match text with
  | EmptyString => [current]
  | String c rest =>
      if Ascii.eqb c "/" then current :: pieces rest ""
      else pieces rest (current ++ String c "")
  end.

(** [Path(text)]: the components of the text; empty components and "." are
    dropped, as pathlib does, so that [Path("")] has no component.  The
    model has one tree, and a text is read from its root. *)
Definition of_text (text : string) : path :=
  filter (fun piece => negb (String.eqb piece "" || String.eqb piece "."))
         (pieces text "").

End Path.

Infix "</>" := Path.join (at level 40, left associativity).

(* ===================================================================== *)
(** ** The category table and the classifier *)
(* ===================================================================== *)

(** [FILE_CATEGORIES]: a dict literal, iterated in insertion order. *)
Definition FILE_CATEGORIES : list (string * list string) :=
  [ ("Images", [".jpg"; ".jpeg"; ".png"; ".gif"; ".bmp"; ".svg"; ".webp"; ".ico"; ".tiff"]);
    ("Videos", [".mp4"; ".avi"; ".mkv"; ".mov"; ".wmv"; ".flv"; ".webm"; ".m4v"; ".mpg"; ".mpeg"]);
    ("Documents", [".pdf"; ".doc"; ".docx"; ".txt"; ".odt"; ".xls"; ".xlsx"; ".ppt"; ".pptx"]);
    ("Music", [".mp3"; ".wav"; ".flac"; ".aac"; ".ogg"; ".wma"; ".m4a"; ".opus"]);
    ("Archives", [".zip"; ".rar"; ".7z"; ".tar"; ".gz"; ".bz2"; ".xz"]);
    ("Code", [".py"; ".js"; ".html"; ".css"; ".cpp"; ".java"; ".c"; ".h"; ".json"; ".xml"; ".sql"]);
    ("Executables", [".exe"; ".msi"; ".app"; ".deb"; ".rpm"]);
    ("Data", [".csv"; ".json"; ".xml"; ".sql"; ".db"; ".sqlite"]) ].

(** The loop [for category, extensions in FILE_CATEGORIES.items()] with its
    early [return category] and the final [return 'Others']. *)
Fixpoint scan_categories (extension : string)
    (items : list (string * list string)) : string :=
  match items with
  | [] => "Others"
  | (category, extensions) :: rest =>
      if Str.mem extension extensions then category
      else scan_categories extension rest
  end.

(** [FileOrganizer.get_file_category]; the method does not read [self]. *)
Definition get_file_category (file_path : path) : string :=
  let extension := Str.lower (Path.suffix file_path) in
  scan_categories extension FILE_CATEGORIES.

(** Specification vocabulary: the labels of the categories that list an
    extension, in declaration order. *)
Definition categories_listing (table : list (string * list string))
    (e : string) : list string :=
  map fst (filter (fun item => Str.mem e (snd item)) table).

Definition categories_of (e : string) : list string :=
  categories_listing FILE_CATEGORIES e.

(* ===================================================================== *)
(** ** datetime *)
(* ===================================================================== *)

(** A [datetime] value; Python keeps [1 <= year <= 9999], months, days,
    hours, minutes and seconds in their calendar ranges. *)
Record datetime := mk_datetime
  { year : nat; month : nat; day : nat; hour : nat; minute : nat; second : nat }.

Definition digit (n : nat) : ascii := ascii_of_nat (48 + n mod 10).

Definition zero_pad2 (n : nat) : string :=
  String (digit (n / 10)) (String (digit n) "").

Definition zero_pad4 (n : nat) : string :=
  String (digit (n / 1000)) (String (digit (n / 100)) (zero_pad2 n)).

(** [t.strftime("%Y%m%d_%H%M%S")] *)
Definition strftime (t : datetime) : string :=
  (zero_pad4 (year t) ++ zero_pad2 (month t) ++ zero_pad2 (day t) ++ "_"
   ++ zero_pad2 (hour t) ++ zero_pad2 (minute t) ++ zero_pad2 (second t))%string.

Definition is_digit (c : ascii) : bool :=
  (48 <=? nat_of_ascii c) && (nat_of_ascii c <=? 57).

(** The shape YYYYMMDD_HHMMSS: eight digits, an underscore, six digits. *)
Definition timestamp_shape (s : string) : bool :=
  match list_ascii_of_string s with
  | [y1; y2; y3; y4; m1; m2; d1; d2; u; h1; h2; n1; n2; s1; s2] =>
      forallb is_digit [y1; y2; y3; y4; m1; m2; d1; d2; h1; h2; n1; n2; s1; s2]
      && Ascii.eqb u "_"%char
  | _ => false
  end.

(* ===================================================================== *)
(** ** The file system, the clock and standard output *)
(* ===================================================================== *)

(** A node is a regular file with its bytes, or a directory. *)
Inductive node : Type :=
| File (content : string)
| Dir.

(** The file system: every existing path with its node.  The order of the
    entries is the order in which a directory listing yields them. *)
Definition filesystem := list (path * node).

Fixpoint lookup (p : path) (t : filesystem) : option node :=
  match t with
  | [] => None
  | (q, n) :: t' => if path_eq_dec p q then Some n else lookup p t'
  end.

Definition unlink (p : path) (t : filesystem) : filesystem :=
  filter (fun entry => negb (path_eqb (fst entry) p)) t.

(** Create or replace the node at [p]; a new name goes last in the listing. *)
Definition write (p : path) (n : node) (t : filesystem) : filesystem :=
  unlink p t ++ [(p, n)].

Definition exists_ (p : path) (t : filesystem) : bool :=
  match lookup p t with Some _ => true | None => false end.

Definition is_file (p : path) (t : filesystem) : bool :=
  match lookup p t with Some (File _) => true | _ => false end.

Definition is_dir (p : path) (t : filesystem) : bool :=
  match lookup p t with Some Dir => true | _ => false end.

(** The direct children of [d], in listing order. *)
Definition children (d : path) (t : filesystem) : list path :=
  map fst
    (filter (fun entry =>
               match fst entry with
               | [] => false
               | _ :: _ => path_eqb (Path.parent (fst entry)) d
               end) t).

(** Exceptions the modelled library calls raise. *)
Inductive exn : Type :=
| FileNotFoundError (p : path)
| FileExistsError (p : path)
| NotADirectoryError (p : path)
| ShutilError (p : path)       (* shutil.Error: destination path already exists *)
| OSError (msg : string).      (* refused by the operating system *)

(** [str(e)] *)
Definition exn_str (e : exn) : string :=
  match e with
  | FileNotFoundError p =>
      ("[Errno 2] No such file or directory: '" ++ Path.str p ++ "'")%string
  | FileExistsError p =>
      ("[Errno 17] File exists: '" ++ Path.str p ++ "'")%string
  | NotADirectoryError p =>
      ("[Errno 20] Not a directory: '" ++ Path.str p ++ "'")%string
  | ShutilError p =>
      ("Destination path '" ++ Path.str p ++ "' already exists")%string
  | OSError msg => msg
  end.

(** [Path.iterdir] *)
Definition iterdir (d : path) (t : filesystem) : exn + list path :=
  match lookup d t with
  | None => inl (FileNotFoundError d)
  | Some (File _) => inl (NotADirectoryError d)
  | Some Dir => inr (children d t)
  end.

(** What the operating system answers when it refuses an operation
    (permission denied, read-only or full disk, ...): the text of its error
    and, for a move, how far the copy it interrupted has come: [None] when
    no file was created at the destination, [Some n] when the first [n]
    bytes of the source were written there (all of them when only the
    unlink of the source was refused). *)
Record refusal := mk_refusal { reason : string; copied : option nat }.

(** [p.mkdir(exist_ok=True)] with [parents=False]: an existing directory is
    accepted, any other occupant is a [FileExistsError], the parent has to
    be an existing directory, and the operating system may refuse to create
    the directory ([fault p p]). *)
Definition mkdir_exist_ok (fault : path -> path -> option refusal)
    (p : path) (t : filesystem) : exn + filesystem :=
  match lookup p t with
  | Some Dir => inr t
  | Some (File _) => inl (FileExistsError p)
  | None =>
      match lookup (Path.parent p) t with
      | Some Dir =>
          match fault p p with
          | Some r => inl (OSError (reason r))
          | None => inr (write p Dir t)
          end
      | Some (File _) => inl (NotADirectoryError p)
      | None => inl (FileNotFoundError p)
      end
  end.

(** [shutil.move(src, dst)] for a regular file [src] (the only sources
    [organize_files] passes).  A destination that is an existing directory
    receives the file under its own name, unless that name is taken there;
    any other destination is the new path of the file and an existing file
    at it is replaced.  [fault src real_dst] is the operating system's
    refusal of the rename and of the copy and unlink that would replace it;
    [interrupted_move] below is the file system such a refusal leaves. *)
Definition shutil_move (fault : path -> path -> option refusal)
    (src dst : path) (t : filesystem) : exn + filesystem :=
  let rename (real_dst : path) : exn + filesystem :=
    match fault src real_dst with
    | Some r => inl (OSError (reason r))
    | None =>
        match lookup src t with
        | None => inl (FileNotFoundError src)
        | Some n =>
            if is_dir (Path.parent real_dst) t
            then inr (write real_dst n (unlink src t))
            else inl (FileNotFoundError real_dst)
        end
    end in
  if is_dir dst t then
    let real_dst := dst </> Path.name src in
    if exists_ real_dst t then inl (ShutilError real_dst) else rename real_dst
  else rename dst.

(** The file system after a [shutil.move] that raised.  After a failed
    rename the library copies the file and then unlinks the source: when
    the refusal strikes during the copy or at the unlink, the bytes written
    so far ([copied]) stay at the destination, in place of what was there,
    and the source is as it was.  In every other failure nothing changes. *)
Definition interrupted_move (fault : path -> path -> option refusal)
    (src dst : path) (t : filesystem) : filesystem :=
  let copy (real_dst : path) : filesystem :=
    match fault src real_dst, lookup src t with
    | Some r, Some (File content) =>
        match copied r with
        | Some n =>
            if is_dir (Path.parent real_dst) t && negb (path_eqb real_dst src)
            then write real_dst (File (Str.take n content)) t
            else t
        | None => t
        end
    | _, _ => t
    end in
  if is_dir dst t then
    let real_dst := dst </> Path.name src in
    if exists_ real_dst t then t else copy real_dst
  else copy dst.

(** One line written by [print]. *)
Inductive line : Type :=
| ErrorSourceMissing (source : path)           (* Error: Source directory '..' does not exist! *)
| Organizing (dry_run : bool) (source : path)  (* [DRY RUN] Organizing files in: .. *)
| DestinationLine (destination : path)         (* Destination: .. *)
| NoFilesFound                                 (* No files found to organize! *)
| Moved (name category : string)               (* Moved: name -> category/ *)
| ErrorMoving (name error : string)            (* Error moving name: error *)
| WouldMove (name category : string)           (* Would move: name -> category/ *)
| SummaryRule                                  (* ===...=== *)
| DryRunComplete                               (* DRY RUN COMPLETE - No files were actually moved *)
| OrganizationComplete                         (* ORGANIZATION COMPLETE *)
| FilesMoved (count : nat)                     (* Files moved: n *)
| ErrorsCount (count : nat)                    (* Errors: n *)
| ErrorItem (name error : string)              (*   - name: error *)
| FilesByCategory                              (* Files by category: *)
| CategoryCount (category : string) (count : nat). (*   category: n file(s) *)

(** Everything outside the organizer object: the file system, the clock
    ([clock k] is what the k-th call of [datetime.now()] returns), the
    refusals of the operating system ([faults src dst] for moving [src] to
    [dst], [faults p p] for creating the directory [p]), and what has been
    printed. *)
Record World := mk_World
  { fs : filesystem;
    clock : nat -> datetime;
    ticks : nat;
    faults : path -> path -> option refusal;
    stdout : list line }.

Definition set_fs (t : filesystem) (w : World) : World :=
  mk_World t (clock w) (ticks w) (faults w) (stdout w).

Definition tick (w : World) : World :=
  mk_World (fs w) (clock w) (S (ticks w)) (faults w) (stdout w).

Definition emit (l : line) (w : World) : World :=
  mk_World (fs w) (clock w) (ticks w) (faults w) (stdout w ++ [l]).

(* ===================================================================== *)
(** ** The class FileOrganizer *)
(* ===================================================================== *)

(** The attributes of the object. *)
Record FileOrganizer := mk_FileOrganizer
  { source_dir : path;
    destination_dir : path;
    moved_files : list (string * string);   (* (file name, category) *)
    errors : list (string * string) }.      (* (file name, str(e)) *)

(** What the constructor is given for a directory: a text, as [main]
    passes, or a pathlib object.  [as_path x] is [Path(x)] and [truth x] is
    [bool(x)], the value that [if x] tests: a text is falsy when it is
    empty, a pathlib object never is. *)
Class PathLike (A : Type) := { as_path : A -> path; truth : A -> bool }.

(** [bool(s)] for a string. *)
Definition truthy (s : string) : bool := negb (String.eqb s "").

#[export] Instance str_PathLike : PathLike string :=
  {| as_path := Path.of_text; truth := truthy |}.

#[export] Instance path_PathLike : PathLike path :=
  {| as_path := fun p => p; truth := fun _ => true |}.

(** [FileOrganizer.__init__]; [destination] is [None] when the argument is
    left out or is [None]:
    [self.destination_dir = Path(destination_dir) if destination_dir
                            else self.source_dir].
    An argument written as a list of components is a pathlib object, one
    written as a text is a [str]; a bare [None] stands for no pathlib
    object. *)
Definition init {A B : Type} `{PathLike A} `{PathLike B}
    (source : A) (destination : option B) : FileOrganizer :=
  let self_source_dir := as_path source in
  mk_FileOrganizer
    self_source_dir
    (match destination with
     | Some d => if truth d then as_path d else self_source_dir
     | None => self_source_dir
     end)
    [] [].

(** A method runs on the object and the world, and either returns or lets
    an exception escape; in both cases the effects so far stay. *)
Definition State := (FileOrganizer * World)%type.

Inductive outcome (A : Type) : Type :=
| Returns (a : A) (s : State)
| Raises (e : exn) (s : State).
Arguments Returns {A} a s.
Arguments Raises {A} e s.

Definition final {A : Type} (o : outcome A) : State :=
  match o with Returns _ s => s | Raises _ s => s end.

Definition M (A : Type) : Type := State -> outcome A.

Definition ret {A : Type} (a : A) : M A := fun s => Returns a s.

Definition bind {A B : Type} (c : M A) (k : A -> M B) : M B :=
  fun s => match c s with
           | Returns a s' => k a s'
           | Raises e s' => Raises e s'
           end.

Definition raise {A : Type} (e : exn) : M A := fun s => Raises e s.

(** [try: body  except Exception as e: handler(e)] *)
Definition try_except {A : Type} (body : M A) (handler : exn -> M A) : M A :=
  fun s => match body s with
           | Returns a s' => Returns a s'
           | Raises e s' => handler e s'
           end.

Declare Scope py_scope.
Delimit Scope py_scope with py.
Notation "x <- c1 ;; c2" := (bind c1 (fun x => c2))
  (at level 61, c1 at next level, right associativity) : py_scope.
Notation "c1 ;; c2" := (bind c1 (fun _ => c2))
  (at level 61, right associativity) : py_scope.
Local Open Scope py_scope.

Definition get_self : M FileOrganizer := fun s => Returns (fst s) s.
Definition get_world : M World := fun s => Returns (snd s) s.
Definition modify_world (f : World -> World) : M unit :=
  fun s => Returns tt (fst s, f (snd s)).
Definition modify_self (f : FileOrganizer -> FileOrganizer) : M unit :=
  fun s => Returns tt (f (fst s), snd s).

(** A file-system call that may raise. *)
Definition fs_call (f : filesystem -> exn + filesystem) : M unit :=
  w <- get_world ;;
  match f (fs w) with
  | inl e => raise e
  | inr t => modify_world (set_fs t)
  end.

(** A file-system call that may raise after having changed something:
    [after_failure] is the file system it leaves then. *)
Definition fs_call_leaving (f : filesystem -> exn + filesystem)
    (after_failure : filesystem -> filesystem) : M unit :=
  w <- get_world ;;
  match f (fs w) with
  | inl e => modify_world (set_fs (after_failure (fs w))) ;; raise e
  | inr t => modify_world (set_fs t)
  end.

Definition print (l : line) : M unit := modify_world (emit l).

(** [datetime.now()] *)
Definition now : M datetime :=
  w <- get_world ;;
  modify_world tick ;;
  ret (clock w (ticks w)).

(** [self.moved_files.append(r)] and [self.errors.append(r)] *)
Definition add_moved (r : string * string) (o : FileOrganizer) : FileOrganizer :=
  mk_FileOrganizer (source_dir o) (destination_dir o) (moved_files o ++ [r]) (errors o).

Definition add_error (r : string * string) (o : FileOrganizer) : FileOrganizer :=
  mk_FileOrganizer (source_dir o) (destination_dir o) (moved_files o) (errors o ++ [r]).

Definition append_moved (r : string * string) : M unit := modify_self (add_moved r).

Definition append_error (r : string * string) : M unit := modify_self (add_error r).

(** A [for] loop over a list. *)
Fixpoint for_each {A : Type} (xs : list A) (body : A -> M unit) : M unit :=
  match xs with
  | [] => ret tt
  | x :: rest => body x ;; for_each rest body
  end.

(** Lines 50-53: the regular files among the listed items, each with its
    category. *)
Definition collect (t : filesystem) (items : list path) : list (path * string) :=
  map (fun item => (item, get_file_category item))
      (filter (fun item => is_file item t) items).

(** Line 71: [f"{file_path.stem}_{timestamp}{file_path.suffix}"] *)
Definition timestamped_name (file_path : path) (timestamp : string) : string :=
  (Path.stem file_path ++ "_" ++ timestamp ++ Path.suffix file_path)%string.

(** Lines 68-72: the destination of a file inside its category directory. *)
Definition choose_destination (category_dir file_path : path) : M path :=
  let destination := category_dir </> Path.name file_path in
  w <- get_world ;;
  if exists_ destination (fs w) then
    t <- now ;;
    let timestamp := strftime t in
    let new_name := timestamped_name file_path timestamp in
    ret (category_dir </> new_name)
  else ret destination.

(** Lines 74-81: the guarded move. *)
Definition move_file (file_path destination : path) (category : string) : M unit :=
  try_except
    (w <- get_world ;;
     fs_call_leaving (shutil_move (faults w) file_path destination)
                     (interrupted_move (faults w) file_path destination) ;;
     append_moved (Path.name file_path, category) ;;
     print (Moved (Path.name file_path) category))
    (fun e =>
       append_error (Path.name file_path, exn_str e) ;;
       print (ErrorMoving (Path.name file_path) (exn_str e))).

(** Lines 61-83: the body of the loop over [files_to_organize]. *)
Definition organize_one (dry_run : bool) (entry : path * string) : M unit :=
  let '(file_path, category) := entry in
  self <- get_self ;;
  let category_dir := destination_dir self </> category in
  if negb dry_run then
    w <- get_world ;;
    fs_call (mkdir_exist_ok (faults w) category_dir) ;;
    destination <- choose_destination category_dir file_path ;;
    move_file file_path destination category
  else
    print (WouldMove (Path.name file_path) category).

(** The dict [categories] of [print_summary], in insertion order. *)
Fixpoint count_category (category : string) (categories : list (string * nat))
  : list (string * nat) :=
  match categories with
  | [] => [(category, 1)]
  | (c, n) :: rest =>
      if String.eqb c category then (c, S n) :: rest
      else (c, n) :: count_category category rest
  end.

Definition count_categories (moved : list (string * string)) : list (string * nat) :=
  fold_left (fun categories r => count_category (snd r) categories) moved [].

(** [sorted(categories.items())]: the keys are distinct, so the order is
    the order of the keys. *)
Fixpoint insert_sorted (item : string * nat) (items : list (string * nat))
  : list (string * nat) :=
  match items with
  | [] => [item]
  | i :: rest =>
      if String.leb (fst item) (fst i) then item :: i :: rest
      else i :: insert_sorted item rest
  end.

Definition sorted (items : list (string * nat)) : list (string * nat) :=
  fold_right insert_sorted [] items.

(** [FileOrganizer.print_summary] *)
Definition print_summary (dry_run : bool) : M unit :=
  print SummaryRule ;;
  self <- get_self ;;
  (if dry_run then print DryRunComplete
   else
     print OrganizationComplete ;;
     print (FilesMoved (length (moved_files self))) ;;
     match errors self with
     | [] => ret tt
     | _ :: _ =>
         print (ErrorsCount (length (errors self))) ;;
         for_each (errors self) (fun r => print (ErrorItem (fst r) (snd r)))
     end) ;;
  match moved_files self with
  | [] => ret tt
  | _ :: _ =>
      print FilesByCategory ;;
      for_each (sorted (count_categories (moved_files self)))
               (fun item => print (CategoryCount (fst item) (snd item)))
  end.

(** [FileOrganizer.organize_files] *)
Definition organize_files (dry_run : bool) : M unit :=
  self <- get_self ;;
  w <- get_world ;;
  if negb (exists_ (source_dir self) (fs w)) then
    print (ErrorSourceMissing (source_dir self))
  else
    print (Organizing dry_run (source_dir self)) ;;
    print (DestinationLine (destination_dir self)) ;;
    match iterdir (source_dir self) (fs w) with
    | inl e => raise e
    | inr items =>
        let files_to_organize := collect (fs w) items in
        match files_to_organize with
        | [] => print NoFilesFound
        | _ :: _ =>
            for_each files_to_organize (organize_one dry_run) ;;
            print_summary dry_run
        end
    end.

(** The listing the loop works on, when the source is a directory. *)
Definition snapshot (self : FileOrganizer) (w : World) : list (path * string) :=
  collect (fs w) (children (source_dir self) (fs w)).

(* ===================================================================== *)
(** ** Vocabulary of the statements *)
(* ===================================================================== *)

(** Several lines printed in a row. *)
Definition emits (ls : list line) (w : World) : World :=
  mk_World (fs w) (clock w) (ticks w) (faults w) (stdout w ++ ls).

(** What [choose_destination] returns in a world, and the world it leaves:
    the clock is read exactly when the plain destination is taken. *)
Definition destination_at (category_dir file_path : path) (w : World) : path :=
  if exists_ (category_dir </> Path.name file_path) (fs w)
  then category_dir </> timestamped_name file_path (strftime (clock w (ticks w)))
  else category_dir </> Path.name file_path.

Definition after_clock (category_dir file_path : path) (w : World) : World :=
  if exists_ (category_dir </> Path.name file_path) (fs w) then tick w else w.

(** The lines of [print_summary]. *)
Definition summary_lines (dry_run : bool) (o : FileOrganizer) : list line :=
  [SummaryRule]
  ++ (if dry_run then [DryRunComplete]
      else [OrganizationComplete; FilesMoved (length (moved_files o))]
           ++ match errors o with
              | [] => []
              | _ :: _ =>
                  ErrorsCount (length (errors o))
                  :: map (fun r => ErrorItem (fst r) (snd r)) (errors o)
              end)
  ++ match moved_files o with
     | [] => []
     | _ :: _ =>
         FilesByCategory
         :: map (fun item => CategoryCount (fst item) (snd item))
                (sorted (count_categories (moved_files o)))
     end.

(** The two lines printed before the listing is read. *)
Definition header (dry_run : bool) (o : FileOrganizer) : list line :=
  [Organizing dry_run (source_dir o); DestinationLine (destination_dir o)].

(** The records of a run: [outcomes] gives, file by file, [None] for a
    completed move and [Some e] for a move that raised [e]. *)
Fixpoint successes (files : list (path * string)) (outcomes : list (option exn))
  : list (string * string) :=
  match files, outcomes with
  | (p, c) :: files', None :: outcomes' => (Path.name p, c) :: successes files' outcomes'
  | _ :: files', Some _ :: outcomes' => successes files' outcomes'
  | _, _ => []
  end.

Fixpoint failures (files : list (path * string)) (outcomes : list (option exn))
  : list (string * string) :=
  match files, outcomes with
  | (p, _) :: files', Some e :: outcomes' =>
      (Path.name p, exn_str e) :: failures files' outcomes'
  | _ :: files', None :: outcomes' => failures files' outcomes'
  | _, _ => []
  end.

(** The same organizer as a fresh object: [FileOrganizer(source, destination)]. *)
Definition fresh (o : FileOrganizer) : FileOrganizer :=
  init (source_dir o) (Some (destination_dir o)).

(** Every category directory the run needs can be created: the destination
    is a directory, no category of a listed file names a regular file in
    it, and the operating system does not refuse to create the directory
    of any such category. *)
Definition category_dirs_free (o : FileOrganizer) (w : World) : Prop :=
  is_dir (destination_dir o) (fs w) = true
  /\ forall p c, In (p, c) (snapshot o w) ->
                 is_file (destination_dir o </> c) (fs w) = false
                 /\ faults w (destination_dir o </> c) (destination_dir o </> c) = None.

(** The outcome C2 promises for a file [p] of category [c] whose plain
    destination is taken in [w]: in the world [w'] after the run the
    occupant is as it was and the file, with its content, is beside it
    under the time-stamped name. *)
Definition collision_resolved (o : FileOrganizer) (p : path) (c : string)
    (w w' : World) : Prop :=
  let cd := destination_dir o </> c in
  let new_name := timestamped_name p (strftime (clock w (ticks w))) in
  lookup (cd </> Path.name p) (fs w') = lookup (cd </> Path.name p) (fs w)
  /\ lookup (cd </> new_name) (fs w') = lookup p (fs w).

(** The organizer with earlier records [m] and [e] in front of its own. *)
Definition with_records (m e : list (string * string)) (o : FileOrganizer)
  : FileOrganizer :=
  mk_FileOrganizer (source_dir o) (destination_dir o)
                   (m ++ moved_files o) (e ++ errors o).

Definition with_records_outcome {A : Type} (m e : list (string * string))
    (r : outcome A) : outcome A :=
  match r with
  | Returns a (o, w) => Returns a (with_records m e o, w)
  | Raises x (o, w) => Raises x (with_records m e o, w)
  end.

(** The records of a run in which every listed file is moved. *)
Definition plain_records (files : list (path * string)) : list (string * string) :=
  map (fun f => (Path.name (fst f), snd f)) files.

(** The paths a run may write or remove when no destination is taken: the
    listed files, their category directories and their destinations. *)
Definition run_touches (dest : path) (files : list (path * string)) (q : path) : Prop :=
  exists p c, In (p, c) files
              /\ (q = p \/ q = dest </> c \/ q = dest </> c </> Path.name p).

(** The paths a run may write or remove in general: the listed files, and
    the category directories with what is in them, two levels deep. *)
Definition run_reaches (dest : path) (files : list (path * string)) (q : path) : Prop :=
  exists p c, In (p, c) files
              /\ (q = p \/ q = dest </> c \/ Path.parent q = dest </> c
                  \/ Path.parent (Path.parent q) = dest </> c).

(** [categories.get(category, 0)] for the dict of [print_summary]. *)
Fixpoint get_count (category : string) (categories : list (string * nat)) : nat :=
  match categories with
  | [] => 0
  | (c, n) :: rest => if String.eqb c category then n else get_count category rest
  end.

(** Ascending order of the labels. *)
Definition label_le (a b : string * nat) : Prop := String.leb (fst a) (fst b) = true.

(** A world with other lines printed before its own. *)
Definition prepend (ls : list line) (w : World) : World :=
  mk_World (fs w) (clock w) (ticks w) (faults w) (ls ++ stdout w).

Definition prepend_outcome {A : Type} (ls : list line) (r : outcome A) : outcome A :=
  match r with
  | Returns a (o, w) => Returns a (o, prepend ls w)
  | Raises x (o, w) => Raises x (o, prepend ls w)
  end.

(** The body of [main] once [argparse] has produced the texts
    [args.source] and [args.destination] ([None] when the option is not
    given) and the flag [args.dry_run]. *)
Definition main (source : string) (destination : option string) (dry_run : bool)
    : World -> outcome unit :=
  fun w => organize_files dry_run (init source destination, w).

(** [content] is a beginning of [original], possibly all of it: what a
    copy of [original] holds that was interrupted or completed. *)
Definition beginning_of (content original : string) : Prop :=
  exists n : nat, content = Str.take n original.

(** The per-category lines among printed lines. *)
Definition category_lines (ls : list line) : list (string * nat) :=
  flat_map (fun l => match l with
                     | CategoryCount category count => [(category, count)]
                     | _ => []
                     end) ls.

(** The world with nothing printed yet. *)
Definition silent (w : World) : World :=
  mk_World (fs w) (clock w) (ticks w) (faults w) [].

(* ===================================================================== *)
(** ** Sample worlds *)
(* ===================================================================== *)

Definition t0 : datetime := mk_datetime 2024 1 31 23 59 59.

Definition no_faults : path -> path -> option refusal := fun _ _ => None.

(** The operating system refuses to move one given file, and nothing is
    copied. *)
Definition deny (victim : path) : path -> path -> option refusal :=
  fun src _ =>
    if path_eqb src victim
    then Some (mk_refusal "[Errno 13] Permission denied" None)
    else None.

(** The operating system interrupts every move of [victim] after [n] bytes
    of the copy. *)
Definition interrupt (victim : path) (n : nat) : path -> path -> option refusal :=
  fun src _ => if path_eqb src victim
               then Some (mk_refusal "[Errno 28] No space left on device" (Some n))
               else None.

Definition world_of (t : filesystem) (fault : path -> path -> option refusal) : World :=
  mk_World t (fun _ => t0) 0 fault [].

(** A second x.txt arrives in out/Documents. *)
Definition incoming : filesystem :=
  [ ([], Dir); (["in"], Dir); (["in"; "x.txt"], File "new");
    (["out"], Dir); (["out"; "Documents"], Dir);
    (["out"; "Documents"; "x.txt"], File "old") ].

(** The five files of section 8 of the specification. *)
Definition five_files : filesystem :=
  [ (["d"], Dir); (["d"; "photo.png"], File "P"); (["d"; "song.mp3"], File "S");
    (["d"; "notes.txt"], File "N"); (["d"; "archive.zip"], File "A");
    (["d"; "data.xyz"], File "X") ].

(* ===================================================================== *)
(** ** The classifier *)
(* ===================================================================== *)

Section Classifier.

Lemma scan_categories_first (e : string) (table : list (string * list string)) :
  scan_categories e table = hd "Others" (categories_listing table e).
Proof.
  unfold categories_listing.
  induction table as [| [category extensions] rest IH]; simpl; [reflexivity |].
  destruct (Str.mem e extensions); simpl; [reflexivity | exact IH].
Qed.

Lemma get_file_category_first (p : path) :
  get_file_category p = hd "Others" (categories_of (Str.lower (Path.suffix p))).
Proof. apply scan_categories_first. Qed.

(** The classifier answers with "Others" or with a label of the table. *)
Lemma get_file_category_label (p : path) :
  In (get_file_category p) ("Others" :: map fst FILE_CATEGORIES).
Proof.
  rewrite get_file_category_first. unfold categories_of, categories_listing.
  destruct (filter _ FILE_CATEGORIES) as [| item rest] eqn:E; [now left |].
  right. change (In (fst item) (map fst FILE_CATEGORIES)). apply in_map.
  assert (Hin : In item (filter (fun item => Str.mem (Str.lower (Path.suffix p)) (snd item))
                                FILE_CATEGORIES))
    by (rewrite E; now left).
  apply filter_In in Hin. tauto.
Qed.

Lemma lower_ascii_idempotent (c : ascii) :
  Str.lower_ascii (Str.lower_ascii c) = Str.lower_ascii c.
Proof.
  unfold Str.lower_ascii.
  destruct ((65 <=? nat_of_ascii c) && (nat_of_ascii c <=? 90)) eqn:E.
  - apply andb_true_iff in E as [E1 E2].
    apply Nat.leb_le in E1. apply Nat.leb_le in E2.
    rewrite nat_ascii_embedding by lia.
    destruct (65 <=? nat_of_ascii c + 32) eqn:F1; simpl; [| reflexivity].
    destruct (nat_of_ascii c + 32 <=? 90) eqn:F2; [| reflexivity].
    apply Nat.leb_le in F2. lia.
  - rewrite E. reflexivity.
Qed.

Lemma lower_idempotent (s : string) : Str.lower (Str.lower s) = Str.lower s.
Proof.
  induction s as [| c s IH]; simpl; [reflexivity |].
  now rewrite lower_ascii_idempotent, IH.
Qed.

Lemma take_drop (i : nat) (s : string) : (Str.take i s ++ Str.drop i s)%string = s.
Proof.
  revert s; induction i as [| i IH]; intros [| a s]; simpl; try reflexivity.
  now rewrite IH.
Qed.

(** The stem and the suffix split the name. *)
Lemma stem_suffix (p : path) : (Path.stem p ++ Path.suffix p)%string = Path.name p.
Proof.
  unfold Path.stem, Path.suffix.
  destruct (Path.suffix_index (Path.name p)) as [i |].
  - apply take_drop.
  - clear. induction (Path.name p) as [| a s IH]; simpl; [reflexivity | now rewrite IH].
Qed.

Example suffix_of_names :
  Path.suffix ["d"; "archive.tar.gz"] = ".gz"
  /\ Path.stem ["d"; "archive.tar.gz"] = "archive.tar"
  /\ Path.suffix ["d"; ".bashrc"] = ""
  /\ Path.suffix ["d"; "trailing."] = ""
  /\ Path.suffix ["d"; "Makefile"] = "".
Proof. repeat split. Qed.

End Classifier.

(** C5. An extension that is listed in exactly one category is classified
    as that category, whatever the case of the letters of the suffix: the
    suffix is lowered before the table is searched. *)
Theorem category_of_unique_extension (e c : string) (p : path) :
  categories_of e = [c] ->
  Str.lower (Path.suffix p) = e ->
  get_file_category p = c.
Proof.
  intros Hone Hext.
  rewrite get_file_category_first, Hext, Hone. reflexivity.
Qed.

Lemma category_of_unique_extension_witness :
  categories_of ".jpg" = ["Images"]
  /\ get_file_category ["home"; "Photo.JPG"] = "Images"
  /\ get_file_category ["home"; "photo.jpg"] = "Images".
Proof.
  split; [reflexivity |].
  split.
  - apply (category_of_unique_extension ".jpg" "Images" ["home"; "Photo.JPG"]);
      reflexivity.
  - apply (category_of_unique_extension ".jpg" "Images" ["home"; "photo.jpg"]);
      reflexivity.
Defined.

(** C6. A suffix that no category lists (compared in lower case) yields
    "Others"; [get_file_category] is a total function of the path alone, and
    its value is always "Others" or a label of the table. *)
Theorem category_of_unlisted_extension :
  (forall p : path,
      categories_of (Str.lower (Path.suffix p)) = [] ->
      get_file_category p = "Others")
  /\ (forall p : path,
        In (get_file_category p) ("Others" :: map fst FILE_CATEGORIES)).
Proof.
  split; intro p.
  - intro Hnone. rewrite get_file_category_first, Hnone. reflexivity.
  - apply get_file_category_label.
Qed.

Lemma category_of_unlisted_extension_witness :
  get_file_category ["home"; "data.xyz"] = "Others"
  /\ get_file_category ["home"; "Makefile"] = "Others".
Proof.
  split; apply (proj1 category_of_unlisted_extension); reflexivity.
Defined.

(** C7. An extension listed in several categories is classified as the one
    declared first; .json, .xml and .sql are listed in Code and in Data, in
    this order, and are classified as Code. *)
Theorem category_of_shared_extension :
  (forall (p : path) (c : string) (others : list string),
      categories_of (Str.lower (Path.suffix p)) = c :: others ->
      get_file_category p = c)
  /\ (forall e : string,
        In e [".json"; ".xml"; ".sql"] -> categories_of e = ["Code"; "Data"])
  /\ (forall p : path,
        In (Str.lower (Path.suffix p)) [".json"; ".xml"; ".sql"] ->
        get_file_category p = "Code").
Proof.
  split; [| split].
  - intros p c others H. rewrite get_file_category_first, H. reflexivity.
  - intros e [<- | [<- | [<- | []]]]; reflexivity.
  - intros p H. rewrite get_file_category_first.
    destruct H as [<- | [<- | [<- | []]]]; reflexivity.
Qed.

Lemma category_of_shared_extension_witness :
  get_file_category ["srv"; "dump.SQL"] = "Code"
  /\ get_file_category ["srv"; "config.json"] = "Code"
  /\ categories_of ".xml" = ["Code"; "Data"].
Proof.
  destruct category_of_shared_extension as (Hfirst & Hboth & Hcode).
  split; [| split].
  - apply (Hfirst ["srv"; "dump.SQL"] "Code" ["Data"]). reflexivity.
  - apply (Hcode ["srv"; "config.json"]). simpl. tauto.
  - apply (Hboth ".xml"). simpl. tauto.
Defined.

(** C9. The category depends on the lowered suffix only: two paths with the
    same lowered suffix get the same label, and so do any two entries of
    the listings of any two file systems, whatever the nodes hold. *)
Theorem category_depends_on_suffix_only :
  (forall p1 p2 : path,
      Str.lower (Path.suffix p1) = Str.lower (Path.suffix p2) ->
      get_file_category p1 = get_file_category p2)
  /\ (forall (t1 t2 : filesystem) (items1 items2 : list path)
             (p1 p2 : path) (c1 c2 : string),
        In (p1, c1) (collect t1 items1) ->
        In (p2, c2) (collect t2 items2) ->
        Str.lower (Path.suffix p1) = Str.lower (Path.suffix p2) ->
        c1 = c2).
Proof.
  assert (Hpure : forall p1 p2 : path,
             Str.lower (Path.suffix p1) = Str.lower (Path.suffix p2) ->
             get_file_category p1 = get_file_category p2).
  { intros p1 p2 H. unfold get_file_category. now rewrite H. }
  split; [exact Hpure |].
  intros t1 t2 items1 items2 p1 p2 c1 c2 H1 H2 Hext.
  unfold collect in H1, H2.
  apply in_map_iff in H1 as (q1 & E1 & _). apply in_map_iff in H2 as (q2 & E2 & _).
  inversion E1; inversion E2; subst. now apply Hpure.
Qed.

Lemma category_depends_on_suffix_only_witness :
  get_file_category ["a"; "b"; "Report.PDF"] = get_file_category ["z"; "notes.v2.pdf"].
Proof.
  apply (proj1 category_depends_on_suffix_only). reflexivity.
Defined.

(* ===================================================================== *)
(** ** The steps of a run *)
(* ===================================================================== *)

Section Printing.

Lemma emits_nil (w : World) : emits [] w = w.
Proof. destruct w; unfold emits; simpl. now rewrite app_nil_r. Qed.

Lemma emits_emit (l : line) (ls : list line) (w : World) :
  emits ls (emit l w) = emits (l :: ls) w.
Proof. unfold emits, emit; simpl. now rewrite <- app_assoc. Qed.

Lemma emits_emits (ls1 ls2 : list line) (w : World) :
  emits ls2 (emits ls1 w) = emits (ls1 ++ ls2) w.
Proof. unfold emits; simpl. now rewrite <- app_assoc. Qed.

Lemma emit_as_emits (l : line) (w : World) : emit l w = emits [l] w.
Proof. reflexivity. Qed.

Lemma print_run (l : line) (o : FileOrganizer) (w : World) :
  print l (o, w) = Returns tt (o, emit l w).
Proof. reflexivity. Qed.

Lemma for_each_print {A : Type} (f : A -> line) (xs : list A)
      (o : FileOrganizer) (w : World) :
  for_each xs (fun x => print (f x)) (o, w) = Returns tt (o, emits (map f xs) w).
Proof.
  revert w; induction xs as [| x xs IH]; intro w; simpl.
  - now rewrite emits_nil.
  - unfold bind. rewrite print_run, IH, emits_emit. reflexivity.
Qed.

Lemma print_summary_run (dry_run : bool) (o : FileOrganizer) (w : World) :
  print_summary dry_run (o, w) = Returns tt (o, emits (summary_lines dry_run o) w).
Proof.
  unfold print_summary, summary_lines, bind, get_self, ret.
  rewrite print_run. cbv beta iota. cbn [fst snd].
  destruct dry_run; [| destruct (errors o) eqn:Ee];
    destruct (moved_files o) eqn:Em;
    repeat (rewrite ?print_run, ?for_each_print; cbv beta iota);
    rewrite ?emit_as_emits, ?emits_emits; cbn [app length];
    rewrite <- ?app_assoc, ?app_nil_r; reflexivity.
Qed.

End Printing.

Section Loop.

Lemma for_each_app {A : Type} (xs ys : list A) (body : A -> M unit) (s : State) :
  for_each (xs ++ ys) body s =
  match for_each xs body s with
  | Returns _ s' => for_each ys body s'
  | Raises e s' => Raises e s'
  end.
Proof.
  revert s; induction xs as [| x xs IH]; intro s; simpl; [reflexivity |].
  unfold bind. destruct (body x s) as [[] s' | e s']; [apply IH | reflexivity].
Qed.

Lemma for_each_step {A : Type} (x : A) (xs : list A) (body : A -> M unit) (s : State) :
  for_each (x :: xs) body s =
  match body x s with
  | Returns _ s' => for_each xs body s'
  | Raises e s' => Raises e s'
  end.
Proof. reflexivity. Qed.

Lemma for_each_cons {A : Type} (x : A) (xs : list A) (body : A -> M unit)
      (s s' : State) :
  body x s = Returns tt s' ->
  for_each (x :: xs) body s = for_each xs body s'.
Proof. intro H. simpl. unfold bind. now rewrite H. Qed.

Lemma organize_one_dry (p : path) (c : string) (o : FileOrganizer) (w : World) :
  organize_one true (p, c) (o, w) = Returns tt (o, emit (WouldMove (Path.name p) c) w).
Proof. reflexivity. Qed.

Lemma choose_destination_run (cd p : path) (o : FileOrganizer) (w : World) :
  choose_destination cd p (o, w) =
  Returns (destination_at cd p w) (o, after_clock cd p w).
Proof.
  unfold choose_destination, destination_at, after_clock, bind, get_world; simpl.
  destruct (exists_ (cd </> Path.name p) (fs w)); reflexivity.
Qed.

Lemma fs_after_clock (cd p : path) (w : World) : fs (after_clock cd p w) = fs w.
Proof. unfold after_clock. now destruct (exists_ _ _). Qed.

Lemma faults_after_clock (cd p : path) (w : World) :
  faults (after_clock cd p w) = faults w.
Proof. unfold after_clock. now destruct (exists_ _ _). Qed.

(** The three ways through the body of the loop when files are moved. *)
Lemma organize_one_mkdir_raises (p : path) (c : string) (o : FileOrganizer)
      (w : World) (e : exn) :
  mkdir_exist_ok (faults w) (destination_dir o </> c) (fs w) = inl e ->
  organize_one false (p, c) (o, w) = Raises e (o, w).
Proof.
  intro H. unfold organize_one, bind, get_self, fs_call, bind, get_world; simpl.
  now rewrite H.
Qed.

Lemma organize_one_moved (p : path) (c : string) (o : FileOrganizer)
      (w : World) (t1 t2 : filesystem) :
  let cd := destination_dir o </> c in
  let w1 := set_fs t1 w in
  mkdir_exist_ok (faults w) cd (fs w) = inr t1 ->
  shutil_move (faults w) p (destination_at cd p w1) t1 = inr t2 ->
  organize_one false (p, c) (o, w) =
  Returns tt (add_moved (Path.name p, c) o,
              emit (Moved (Path.name p) c) (set_fs t2 (after_clock cd p w1))).
Proof.
  intros cd w1 Hmk Hmv.
  unfold organize_one, bind, get_self, fs_call, bind, get_world; simpl.
  fold cd. rewrite Hmk. simpl. fold w1.
  rewrite choose_destination_run.
  unfold move_file, try_except, bind, get_world, fs_call_leaving, bind, get_world; simpl.
  rewrite faults_after_clock, fs_after_clock. simpl.
  rewrite Hmv. reflexivity.
Qed.

Lemma organize_one_failed (p : path) (c : string) (o : FileOrganizer)
      (w : World) (t1 : filesystem) (e : exn) :
  let cd := destination_dir o </> c in
  let w1 := set_fs t1 w in
  mkdir_exist_ok (faults w) cd (fs w) = inr t1 ->
  shutil_move (faults w) p (destination_at cd p w1) t1 = inl e ->
  organize_one false (p, c) (o, w) =
  Returns tt (add_error (Path.name p, exn_str e) o,
              emit (ErrorMoving (Path.name p) (exn_str e))
                   (set_fs (interrupted_move (faults w) p (destination_at cd p w1) t1)
                           (after_clock cd p w1))).
Proof.
  intros cd w1 Hmk Hmv.
  unfold organize_one, bind, get_self, fs_call, bind, get_world; simpl.
  fold cd. rewrite Hmk. simpl. fold w1.
  rewrite choose_destination_run.
  unfold move_file, try_except, bind, get_world, fs_call_leaving, bind, get_world; simpl.
  rewrite faults_after_clock, fs_after_clock. simpl.
  rewrite Hmv. reflexivity.
Qed.

End Loop.

Section Run.

Lemma is_dir_lookup (p : path) (t : filesystem) :
  is_dir p t = true <-> lookup p t = Some Dir.
Proof.
  unfold is_dir. destruct (lookup p t) as [[c |] |]; split; congruence.
Qed.

Lemma is_file_lookup (p : path) (t : filesystem) :
  is_file p t = true <-> exists content, lookup p t = Some (File content).
Proof.
  unfold is_file. destruct (lookup p t) as [[c |] |]; split;
    try congruence; try (intros [c' H]; congruence).
  intros _. now exists c.
Qed.

(** A run on an existing directory with at least one regular file is the
    header, the loop over the listing, and the summary. *)
Lemma organize_files_run (dry_run : bool) (o : FileOrganizer) (w : World) :
  is_dir (source_dir o) (fs w) = true ->
  snapshot o w <> [] ->
  organize_files dry_run (o, w) =
  match for_each (snapshot o w) (organize_one dry_run)
                 (o, emits (header dry_run o) w) with
  | Returns _ s' => print_summary dry_run s'
  | Raises e s' => Raises e s'
  end.
Proof.
  intros Hdir Hne. apply is_dir_lookup in Hdir.
  unfold organize_files, bind, get_self, get_world; simpl.
  unfold exists_, iterdir. rewrite Hdir. simpl.
  fold (snapshot o w).
  destruct (snapshot o w) as [| x xs] eqn:E; [congruence |].
  rewrite !emit_as_emits, emits_emits. reflexivity.
Qed.

Lemma for_each_dry (files : list (path * string)) (o : FileOrganizer) (w : World) :
  for_each files (organize_one true) (o, w) =
  Returns tt (o, emits (map (fun f => WouldMove (Path.name (fst f)) (snd f)) files) w).
Proof.
  revert w; induction files as [| [p c] files IH]; intro w.
  - simpl. now rewrite emits_nil.
  - rewrite (for_each_cons _ _ _ _ _ (organize_one_dry p c o w)).
    rewrite IH, emit_as_emits, emits_emits. reflexivity.
Qed.

(** The two ways a run ends before the listing is taken. *)
Lemma organize_files_source_missing (dry_run : bool) (o : FileOrganizer) (w : World) :
  lookup (source_dir o) (fs w) = None ->
  organize_files dry_run (o, w) =
  Returns tt (o, emit (ErrorSourceMissing (source_dir o)) w).
Proof.
  intro Hnone.
  unfold organize_files, bind, get_self, get_world; simpl.
  unfold exists_. rewrite Hnone. reflexivity.
Qed.

Lemma organize_files_source_is_file (dry_run : bool) (o : FileOrganizer) (w : World) :
  is_file (source_dir o) (fs w) = true ->
  organize_files dry_run (o, w) =
  Raises (NotADirectoryError (source_dir o)) (o, emits (header dry_run o) w).
Proof.
  intro Hfile. apply is_file_lookup in Hfile as [content Hfile].
  unfold organize_files, bind, get_self, get_world; simpl.
  unfold exists_, iterdir. rewrite Hfile. simpl.
  rewrite !emit_as_emits, emits_emits. reflexivity.
Qed.

(** The run of section 8 of the specification: five files, five
    categories, the per-category counts in the order of the labels. *)
Example organize_five_files :
  let w := world_of [ (["d"], Dir); (["d"; "photo.png"], File "P");
                      (["d"; "song.mp3"], File "S"); (["d"; "notes.txt"], File "N");
                      (["d"; "archive.zip"], File "A"); (["d"; "data.xyz"], File "X") ]
                    no_faults in
  let s := final (organize_files false (init ["d"] None, w)) in
  moved_files (fst s) =
    [ ("photo.png", "Images"); ("song.mp3", "Music"); ("notes.txt", "Documents");
      ("archive.zip", "Archives"); ("data.xyz", "Others") ]
  /\ errors (fst s) = []
  /\ children ["d"] (fs (snd s)) =
     [ ["d"; "Images"]; ["d"; "Music"]; ["d"; "Documents"]; ["d"; "Archives"];
       ["d"; "Others"] ]
  /\ lookup ["d"; "Images"; "photo.png"] (fs (snd s)) = Some (File "P")
  /\ lookup ["d"; "Others"; "data.xyz"] (fs (snd s)) = Some (File "X")
  /\ skipn 9 (stdout (snd s)) =
     [ FilesMoved 5; FilesByCategory; CategoryCount "Archives" 1;
       CategoryCount "Documents" 1; CategoryCount "Images" 1;
       CategoryCount "Music" 1; CategoryCount "Others" 1 ].
Proof. cbv zeta. repeat split. Qed.

End Run.

(** C1, as the code has it.  When the source path does not exist, the run
    prints the "does not exist" error and returns at once: the object (and
    so both record lists) and the file system are as before and nothing
    else is printed.  When the source exists but is a regular file, the
    existence test passes, the two header lines are printed and reading the
    listing raises NotADirectoryError to the caller; the record lists and
    the file system are unchanged there too. *)
Theorem organize_source_unusable (dry_run : bool) (o : FileOrganizer) (w : World) :
  (lookup (source_dir o) (fs w) = None ->
   organize_files dry_run (o, w) =
   Returns tt (o, emit (ErrorSourceMissing (source_dir o)) w))
  /\ (is_file (source_dir o) (fs w) = true ->
      organize_files dry_run (o, w) =
      Raises (NotADirectoryError (source_dir o)) (o, emits (header dry_run o) w)).
Proof.
  split; intro H.
  - now apply organize_files_source_missing.
  - now apply organize_files_source_is_file.
Qed.

Lemma organize_source_unusable_witness :
  organize_files false (init ["gone"] None, world_of [([], Dir)] no_faults) =
  Returns tt (init ["gone"] None,
              emit (ErrorSourceMissing ["gone"]) (world_of [([], Dir)] no_faults))
  /\ organize_files true
       (init ["notes.txt"] None,
        world_of [([], Dir); (["notes.txt"], File "hello")] no_faults) =
     Raises (NotADirectoryError ["notes.txt"])
       (init ["notes.txt"] None,
        emits (header true (init ["notes.txt"] None))
              (world_of [([], Dir); (["notes.txt"], File "hello")] no_faults)).
Proof.
  split.
  - refine (proj1 (organize_source_unusable false (init ["gone"] None)
                     (world_of [([], Dir)] no_faults)) _).
    reflexivity.
  - refine (proj2 (organize_source_unusable true (init ["notes.txt"] None)
                     (world_of [([], Dir); (["notes.txt"], File "hello")] no_faults)) _).
    reflexivity.
Defined.

(** C1 as stated fails for a source that is a regular file: the source is
    not a directory, yet the run does not stop with the source-not-found
    report; it prints the header and the listing raises. *)
Lemma organize_source_is_a_file :
  let o := init ["notes.txt"] None in
  let w := world_of [([], Dir); (["notes.txt"], File "hello")] no_faults in
  is_dir (source_dir o) (fs w) = false
  /\ organize_files false (o, w) =
     Raises (NotADirectoryError ["notes.txt"])
            (o, emits [Organizing false ["notes.txt"]; DestinationLine ["notes.txt"]] w)
  /\ organize_files false (o, w) <>
     Returns tt (o, emit (ErrorSourceMissing ["notes.txt"]) w).
Proof.
  cbv zeta. split; [reflexivity |]. split; [reflexivity |].
  intro H. discriminate H.
Qed.

(** C3. A dry run on a directory with at least one regular file returns
    with the organizer unchanged (no record is added) and the file system
    (and the clock) untouched; it prints the header, one "Would move" line
    per listed file, in listing order, with the category of that file, and
    the summary. *)
Theorem dry_run_changes_nothing (o : FileOrganizer) (w : World) :
  is_dir (source_dir o) (fs w) = true ->
  snapshot o w <> [] ->
  exists w' : World,
    organize_files true (o, w) = Returns tt (o, w')
    /\ fs w' = fs w
    /\ ticks w' = ticks w
    /\ stdout w' =
       stdout w ++ header true o
       ++ map (fun f => WouldMove (Path.name (fst f)) (get_file_category (fst f)))
              (snapshot o w)
       ++ summary_lines true o.
Proof.
  intros Hdir Hne.
  rewrite (organize_files_run true o w Hdir Hne), for_each_dry, print_summary_run.
  eexists. split; [reflexivity |].
  rewrite !emits_emits. simpl. repeat split.
  do 3 f_equal. unfold snapshot, collect. rewrite !map_map. reflexivity.
Qed.

Lemma dry_run_changes_nothing_witness :
  let o := init ["d"] None in
  let w := world_of [ (["d"], Dir); (["d"; "photo.png"], File "P");
                      (["d"; "sub"], Dir); (["d"; "notes.TXT"], File "N") ] no_faults in
  exists w' : World,
    organize_files true (o, w) = Returns tt (o, w')
    /\ fs w' = fs w
    /\ ticks w' = ticks w
    /\ stdout w' =
       [ Organizing true ["d"]; DestinationLine ["d"];
         WouldMove "photo.png" "Images"; WouldMove "notes.TXT" "Documents";
         SummaryRule; DryRunComplete ].
Proof.
  cbv zeta.
  destruct (dry_run_changes_nothing (init ["d"] None)
              (world_of [ (["d"], Dir); (["d"; "photo.png"], File "P");
                          (["d"; "sub"], Dir); (["d"; "notes.TXT"], File "N") ] no_faults))
    as (w' & Hrun & Hfs & Hticks & Hout).
  - reflexivity.
  - discriminate.
  - exists w'. repeat split; assumption.
Defined.

(* ===================================================================== *)
(** ** The file system operations *)
(* ===================================================================== *)

Section FileSystem.

Lemma lookup_app (p : path) (t1 t2 : filesystem) :
  lookup p (t1 ++ t2) =
  match lookup p t1 with Some n => Some n | None => lookup p t2 end.
Proof.
  induction t1 as [| [q n] t1 IH]; simpl; [reflexivity |].
  destruct (path_eq_dec p q); [reflexivity | exact IH].
Qed.

Lemma lookup_unlink_eq (p : path) (t : filesystem) : lookup p (unlink p t) = None.
Proof.
  unfold unlink. induction t as [| [q n] t IH]; simpl; [reflexivity |].
  unfold path_eqb. destruct (path_eq_dec q p) as [-> | Hne]; simpl; [exact IH |].
  destruct (path_eq_dec p q); [congruence | exact IH].
Qed.

Lemma lookup_unlink_ne (p q : path) (t : filesystem) :
  q <> p -> lookup q (unlink p t) = lookup q t.
Proof.
  intro Hne. unfold unlink. induction t as [| [r n] t IH]; simpl; [reflexivity |].
  unfold path_eqb. destruct (path_eq_dec r p) as [-> | Hrp]; simpl.
  - destruct (path_eq_dec q p); [congruence | exact IH].
  - destruct (path_eq_dec q r); [reflexivity | exact IH].
Qed.

Lemma lookup_write_eq (p : path) (n : node) (t : filesystem) :
  lookup p (write p n t) = Some n.
Proof.
  unfold write. rewrite lookup_app, lookup_unlink_eq. simpl.
  destruct (path_eq_dec p p); congruence.
Qed.

Lemma lookup_write_ne (p q : path) (n : node) (t : filesystem) :
  q <> p -> lookup q (write p n t) = lookup q t.
Proof.
  intro Hne. unfold write. rewrite lookup_app, lookup_unlink_ne by exact Hne.
  destruct (lookup q t); [reflexivity |]. simpl.
  destruct (path_eq_dec q p); congruence.
Qed.

Lemma join_length (p : path) (x : string) : length (p </> x) = S (length p).
Proof. unfold Path.join. rewrite length_app. simpl. lia. Qed.

Lemma join_neq (p : path) (x : string) : p </> x <> p.
Proof. intro H. apply (f_equal (@length string)) in H. rewrite join_length in H. lia. Qed.

Lemma join_inj (p q : path) (x y : string) : p </> x = q </> y -> p = q /\ x = y.
Proof. unfold Path.join. intro H. apply app_inj_tail in H. exact H. Qed.

Lemma parent_join (p : path) (x : string) : Path.parent (p </> x) = p.
Proof. unfold Path.parent, Path.join. apply removelast_last. Qed.

Lemma name_join (p : path) (x : string) : Path.name (p </> x) = x.
Proof. unfold Path.name, Path.join. apply last_last. Qed.

(** What a successful [mkdir] leaves. *)
Lemma mkdir_exist_ok_inr (fault : path -> path -> option refusal)
      (p : path) (t t' : filesystem) :
  mkdir_exist_ok fault p t = inr t' ->
  lookup p t' = Some Dir
  /\ (forall q, q <> p -> lookup q t' = lookup q t)
  /\ (t' = t \/ lookup p t = None).
Proof.
  unfold mkdir_exist_ok.
  destruct (lookup p t) as [[c |] |] eqn:E; try discriminate.
  - intro H; inversion H; subst. auto.
  - destruct (lookup (Path.parent p) t) as [[c |] |]; try discriminate.
    destruct (fault p p); try discriminate.
    intro H; inversion H; subst. split; [apply lookup_write_eq |].
    split; [| now right]. intros q Hq. now apply lookup_write_ne.
Qed.

(** When [mkdir] succeeds. *)
Lemma mkdir_exist_ok_succeeds (fault : path -> path -> option refusal)
      (d : path) (c : string) (t : filesystem) :
  is_dir d t = true ->
  is_file (d </> c) t = false ->
  fault (d </> c) (d </> c) = None ->
  exists t', mkdir_exist_ok fault (d </> c) t = inr t'.
Proof.
  intros Hd Hc Hf. apply is_dir_lookup in Hd.
  unfold mkdir_exist_ok, is_file in *.
  destruct (lookup (d </> c) t) as [[content |] |]; try discriminate; eauto.
  rewrite parent_join, Hd, Hf. eauto.
Qed.

(** What a [shutil.move] that raised leaves: the file system as it was, or
    with the bytes of the interrupted copy at the destination, which is
    another path than the source. *)
Lemma interrupted_move_spec (fault : path -> path -> option refusal)
      (src dst : path) (t : filesystem) :
  interrupted_move fault src dst t = t
  \/ exists (real_dst : path) (r : refusal) (n : nat) (content : string),
       fault src real_dst = Some r
       /\ copied r = Some n
       /\ lookup src t = Some (File content)
       /\ (real_dst = dst \/ real_dst = dst </> Path.name src)
       /\ real_dst <> src
       /\ interrupted_move fault src dst t
          = write real_dst (File (Str.take n content)) t.
Proof.
  unfold interrupted_move.
  set (copy := fun real_dst : path =>
                 match fault src real_dst, lookup src t with
                 | Some r, Some (File content) =>
                     match copied r with
                     | Some n =>
                         if is_dir (Path.parent real_dst) t && negb (path_eqb real_dst src)
                         then write real_dst (File (Str.take n content)) t
                         else t
                     | None => t
                     end
                 | _, _ => t
                 end).
  assert (Hcopy : forall real_dst,
             real_dst = dst \/ real_dst = dst </> Path.name src ->
             copy real_dst = t
             \/ exists (real_dst0 : path) (r : refusal) (n : nat) (content : string),
                  fault src real_dst0 = Some r
                  /\ copied r = Some n
                  /\ lookup src t = Some (File content)
                  /\ (real_dst0 = dst \/ real_dst0 = dst </> Path.name src)
                  /\ real_dst0 <> src
                  /\ copy real_dst = write real_dst0 (File (Str.take n content)) t).
  { intros real_dst Hreal. unfold copy.
    destruct (fault src real_dst) as [r |] eqn:Hf; [| now left].
    destruct (lookup src t) as [[content |] |]; try (now left).
    destruct (copied r) as [n |] eqn:Hd; [| now left].
    destruct (is_dir (Path.parent real_dst) t); simpl; [| now left].
    unfold path_eqb. destruct (path_eq_dec real_dst src) as [E | Hne]; simpl; [now left |].
    right. exists real_dst, r, n, content. auto 7. }
  destruct (is_dir dst t).
  - destruct (exists_ (dst </> Path.name src) t); [now left |]. apply Hcopy. now right.
  - apply Hcopy. now left.
Qed.

(** A path other than the two possible destinations is as before. *)
Lemma interrupted_move_lookup (fault : path -> path -> option refusal)
      (src dst : path) (t : filesystem) (q : path) :
  q <> dst -> q <> dst </> Path.name src ->
  lookup q (interrupted_move fault src dst t) = lookup q t.
Proof.
  intros H1 H2.
  destruct (interrupted_move_spec fault src dst t)
    as [-> | (real_dst & r & n & content & _ & _ & _ & Hreal & _ & ->)]; [reflexivity |].
  apply lookup_write_ne. destruct Hreal as [-> | ->]; assumption.
Qed.


(** Where nothing is left behind, nothing changes. *)
Lemma interrupted_move_clean (fault : path -> path -> option refusal)
      (src dst : path) (t : filesystem) :
  (forall d r, fault src d = Some r -> copied r = None) ->
  interrupted_move fault src dst t = t.
Proof.
  intro Hclean.
  destruct (interrupted_move_spec fault src dst t)
    as [H | (real_dst & r & n & content & Hf & Hd & _)]; [exact H |].
  rewrite (Hclean _ _ Hf) in Hd. discriminate.
Qed.

(** What a successful [shutil.move] did. *)
Lemma shutil_move_inr (fault : path -> path -> option refusal) (src dst : path)
      (t t' : filesystem) :
  shutil_move fault src dst t = inr t' ->
  exists (real_dst : path) (n : node),
    lookup src t = Some n
    /\ t' = write real_dst n (unlink src t)
    /\ fault src real_dst = None
    /\ ((is_dir dst t = false /\ real_dst = dst)
        \/ (is_dir dst t = true /\ real_dst = dst </> Path.name src
            /\ exists_ real_dst t = false)).
Proof.
  unfold shutil_move.
  destruct (is_dir dst t) eqn:Hd.
  - destruct (exists_ (dst </> Path.name src) t) eqn:Hx; [discriminate |].
    destruct (fault src (dst </> Path.name src)) eqn:Hf; [discriminate |].
    destruct (lookup src t) as [n |]; [| discriminate].
    destruct (is_dir (Path.parent (dst </> Path.name src)) t); [| discriminate].
    intro H; inversion H; subst. exists (dst </> Path.name src), n. auto 10.
  - destruct (fault src dst) eqn:Hf; [discriminate |].
    destruct (lookup src t) as [n |]; [| discriminate].
    destruct (is_dir (Path.parent dst) t); [| discriminate].
    intro H; inversion H; subst. exists dst, n. auto 10.
Qed.

End FileSystem.

(* ===================================================================== *)
(** ** The loop over the listing *)
(* ===================================================================== *)

Section Records.

(** The body of the loop, when files are moved, goes one of three ways. *)
Lemma organize_one_cases (p : path) (c : string) (o : FileOrganizer) (w : World) :
  let cd := destination_dir o </> c in
  (exists e,
      mkdir_exist_ok (faults w) cd (fs w) = inl e
      /\ organize_one false (p, c) (o, w) = Raises e (o, w))
  \/ (exists t1 t2,
         mkdir_exist_ok (faults w) cd (fs w) = inr t1
         /\ shutil_move (faults w) p (destination_at cd p (set_fs t1 w)) t1 = inr t2
         /\ organize_one false (p, c) (o, w) =
            Returns tt (add_moved (Path.name p, c) o,
                        emit (Moved (Path.name p) c)
                             (set_fs t2 (after_clock cd p (set_fs t1 w)))))
  \/ (exists t1 e,
         mkdir_exist_ok (faults w) cd (fs w) = inr t1
         /\ shutil_move (faults w) p (destination_at cd p (set_fs t1 w)) t1 = inl e
         /\ organize_one false (p, c) (o, w) =
            Returns tt (add_error (Path.name p, exn_str e) o,
                        emit (ErrorMoving (Path.name p) (exn_str e))
                             (set_fs (interrupted_move (faults w) p
                                        (destination_at cd p (set_fs t1 w)) t1)
                                     (after_clock cd p (set_fs t1 w))))).
Proof.
  intro cd.
  destruct (mkdir_exist_ok (faults w) cd (fs w)) as [e | t1] eqn:Hmk.
  - left. exists e. split; [reflexivity |]. now apply organize_one_mkdir_raises.
  - right.
    destruct (shutil_move (faults w) p (destination_at cd p (set_fs t1 w)) t1)
      as [e | t2] eqn:Hmv.
    + right. exists t1, e. repeat split; try assumption.
      now apply organize_one_failed.
    + left. exists t1, t2. repeat split; try assumption.
      now apply organize_one_moved.
Qed.

Lemma successes_failures_length (files : list (path * string))
      (outcomes : list (option exn)) :
  length outcomes = length files ->
  length (successes files outcomes) + length (failures files outcomes) = length files.
Proof.
  revert outcomes; induction files as [| [p c] files IH];
    intros [| [e |] outcomes] H; simpl in *; try discriminate; try reflexivity;
    injection H as H; specialize (IH _ H); lia.
Qed.

(** A loop that comes to its end has left one record per file, in one of
    the two lists, in listing order. *)
Lemma loop_records (files : list (path * string)) :
  forall (o : FileOrganizer) (w : World) (o' : FileOrganizer) (w' : World),
    for_each files (organize_one false) (o, w) = Returns tt (o', w') ->
    exists outcomes : list (option exn),
      length outcomes = length files
      /\ source_dir o' = source_dir o
      /\ destination_dir o' = destination_dir o
      /\ moved_files o' = moved_files o ++ successes files outcomes
      /\ errors o' = errors o ++ failures files outcomes.
Proof.
  induction files as [| [p c] files IH]; intros o w o' w' Hrun.
  - simpl in Hrun. inversion Hrun; subst. exists []. simpl.
    now rewrite !app_nil_r.
  - rewrite for_each_step in Hrun.
    destruct (organize_one_cases p c o w)
      as [(e & _ & Hstep) | [(t1 & t2 & _ & _ & Hstep) | (t1 & e & _ & _ & Hstep)]];
      rewrite Hstep in Hrun; [discriminate | |].
    + apply IH in Hrun as (outcomes & Hlen & Hs & Hd & Hm & He).
      exists (None :: outcomes). simpl in *.
      rewrite Hm, He, <- app_assoc. auto.
    + apply IH in Hrun as (outcomes & Hlen & Hs & Hd & Hm & He).
      exists (Some e :: outcomes). simpl in *.
      rewrite Hm, He, <- app_assoc. auto.
Qed.

Lemma destination_at_join (cd p : path) (w : World) :
  exists x : string, destination_at cd p w = cd </> x.
Proof. unfold destination_at. destruct (exists_ _ _); eauto. Qed.




(** Three files, the second of which the operating system refuses to
    move: the first and the third are moved, the second is recorded as an
    error and stays where it was. *)
Example organize_with_refused_move :
  let w := world_of [ (["d"], Dir); (["d"; "a.txt"], File "A");
                      (["d"; "b.png"], File "B"); (["d"; "c.csv"], File "C") ]
                    (deny ["d"; "b.png"]) in
  let s := final (organize_files false (init ["d"] None, w)) in
  moved_files (fst s) = [("a.txt", "Documents"); ("c.csv", "Data")]
  /\ errors (fst s) = [("b.png", "[Errno 13] Permission denied")]
  /\ lookup ["d"; "b.png"] (fs (snd s)) = Some (File "B")
  /\ lookup ["d"; "Documents"; "a.txt"] (fs (snd s)) = Some (File "A")
  /\ lookup ["d"; "Data"; "c.csv"] (fs (snd s)) = Some (File "C")
  /\ lookup ["d"; "Images"; "b.png"] (fs (snd s)) = None.
Proof. cbv zeta. vm_compute. repeat split. Qed.

End Records.

Section Listing.

Lemma snapshot_entry (o : FileOrganizer) (w : World) (p : path) (c : string) :
  In (p, c) (snapshot o w) ->
  is_file p (fs w) = true /\ c = get_file_category p.
Proof.
  unfold snapshot, collect. intro H.
  apply in_map_iff in H as (q & E & Hq). inversion E; subst.
  apply filter_In in Hq. tauto.
Qed.

Lemma organize_files_empty (dry_run : bool) (o : FileOrganizer) (w : World) :
  is_dir (source_dir o) (fs w) = true ->
  snapshot o w = [] ->
  organize_files dry_run (o, w) =
  Returns tt (o, emits (header dry_run o ++ [NoFilesFound]) w).
Proof.
  intros Hdir Hnil. apply is_dir_lookup in Hdir.
  unfold organize_files, bind, get_self, get_world; simpl.
  unfold exists_, iterdir. rewrite Hdir. simpl.
  fold (snapshot o w). rewrite Hnil.
  rewrite print_run, !emit_as_emits, !emits_emits. reflexivity.
Qed.

End Listing.







(* ===================================================================== *)
(** ** Time stamps and renamed files *)
(* ===================================================================== *)

Section Timestamp.

Lemma is_digit_digit (n : nat) : is_digit (digit n) = true.
Proof.
  unfold is_digit, digit.
  pose proof (Nat.mod_upper_bound n 10 ltac:(lia)) as Hlt.
  rewrite nat_ascii_embedding by lia.
  apply andb_true_iff. split; apply Nat.leb_le; lia.
Qed.

(** [strftime] always yields eight digits, an underscore and six digits. *)
Lemma strftime_shape (t : datetime) : timestamp_shape (strftime t) = true.
Proof.
  unfold strftime, zero_pad4, zero_pad2, timestamp_shape.
  cbn [append list_ascii_of_string forallb].
  rewrite !is_digit_digit. reflexivity.
Qed.

Lemma strftime_length (t : datetime) : String.length (strftime t) = 15.
Proof. reflexivity. Qed.

Lemma append_length (a b : string) :
  String.length (a ++ b)%string = String.length a + String.length b.
Proof. induction a as [| x a IH]; simpl; [reflexivity | now rewrite IH]. Qed.

(** The new name is the old one with "_" and the time stamp put between
    the stem and the suffix; it is never the old name. *)
Lemma timestamped_name_neq (p : path) (t : datetime) :
  timestamped_name p (strftime t) <> Path.name p.
Proof.
  intro H. apply (f_equal String.length) in H.
  rewrite <- (stem_suffix p) in H. unfold timestamped_name in H.
  rewrite !append_length, strftime_length in H. simpl in H. lia.
Qed.

End Timestamp.

Section Collision.

Lemma mkdir_exist_ok_present (fault : path -> path -> option refusal)
      (p : path) (t : filesystem) :
  is_dir p t = true -> mkdir_exist_ok fault p t = inr t.
Proof. intro H. apply is_dir_lookup in H. unfold mkdir_exist_ok. now rewrite H. Qed.

(** Moving a regular file to a free or file-occupied path in an existing
    directory succeeds unless the operating system refuses. *)
Lemma shutil_move_file (fault : path -> path -> option refusal) (src dst : path)
      (t : filesystem) (n : node) :
  lookup src t = Some n ->
  is_dir dst t = false ->
  is_dir (Path.parent dst) t = true ->
  fault src dst = None ->
  shutil_move fault src dst t = inr (write dst n (unlink src t)).
Proof.
  intros Hsrc Hdst Hparent Hfault. unfold shutil_move.
  now rewrite Hdst, Hfault, Hsrc, Hparent.
Qed.

End Collision.

(** C2, as the code has it.  Let a regular file be processed while its plain
    destination (category directory / file name) is taken by another entry
    than the file itself, the time-stamped path not being a directory and
    the operating system not refusing the move.  Then the file is moved and
    recorded; its new name is stem, "_", a time stamp of the shape
    YYYYMMDD_HHMMSS, suffix, which differs from the old name; afterwards the
    occupant is as it was, the file with its content is at the new name in
    the category directory, and it is gone from where it was. *)
Theorem collision_gets_timestamped_name
    (o : FileOrganizer) (w : World) (p : path) (c content : string) :
  let cd := destination_dir o </> c in
  let timestamp := strftime (clock w (ticks w)) in
  let new_name := (Path.stem p ++ "_" ++ timestamp ++ Path.suffix p)%string in
  lookup p (fs w) = Some (File content) ->
  is_dir cd (fs w) = true ->
  exists_ (cd </> Path.name p) (fs w) = true ->
  cd </> Path.name p <> p ->
  is_dir (cd </> new_name) (fs w) = false ->
  faults w p (cd </> new_name) = None ->
  exists w' : World,
    organize_one false (p, c) (o, w) = Returns tt (add_moved (Path.name p, c) o, w')
    /\ timestamp_shape timestamp = true
    /\ new_name <> Path.name p
    /\ (Path.stem p ++ Path.suffix p)%string = Path.name p
    /\ lookup (cd </> Path.name p) (fs w') = lookup (cd </> Path.name p) (fs w)
    /\ lookup (cd </> new_name) (fs w') = Some (File content)
    /\ lookup p (fs w') = None
    /\ collision_resolved o p c w w'.
Proof.
  intros cd timestamp new_name Hfile Hcd Htaken Hother Hnodir Hfault.
  assert (Hname : new_name <> Path.name p) by apply timestamped_name_neq.
  assert (Hdst : destination_at cd p (set_fs (fs w) w) = cd </> new_name).
  { unfold destination_at. simpl. now rewrite Htaken. }
  assert (Hmove : shutil_move (faults w) p (destination_at cd p (set_fs (fs w) w)) (fs w)
                  = inr (write (cd </> new_name) (File content) (unlink p (fs w)))).
  { rewrite Hdst. apply shutil_move_file; try assumption. now rewrite parent_join. }
  pose proof (organize_one_moved p c o w (fs w) _ (mkdir_exist_ok_present _ _ _ Hcd) Hmove)
    as Hstep.
  assert (Hocc : cd </> Path.name p <> cd </> new_name).
  { intro E. apply join_inj in E as [_ E]. now apply Hname. }
  assert (Hsrc : p <> cd </> new_name).
  { intro E. apply Hother. rewrite E at 1. now rewrite name_join. }
  eexists. split; [exact Hstep |]. simpl.
  split; [apply strftime_shape |]. split; [exact Hname |].
  split; [apply stem_suffix |].
  assert (Hkept : lookup (cd </> Path.name p)
                         (write (cd </> new_name) (File content) (unlink p (fs w)))
                  = lookup (cd </> Path.name p) (fs w))
    by (rewrite lookup_write_ne, lookup_unlink_ne by assumption; reflexivity).
  assert (Hnew : lookup (cd </> new_name)
                        (write (cd </> new_name) (File content) (unlink p (fs w)))
                 = Some (File content)) by apply lookup_write_eq.
  split; [exact Hkept |]. split; [exact Hnew |].
  split; [rewrite lookup_write_ne by assumption; apply lookup_unlink_eq |].
  unfold collision_resolved. simpl. fold cd. split; [exact Hkept |].
  rewrite Hfile. exact Hnew.
Qed.

Lemma collision_gets_timestamped_name_witness :
  let o := init ["in"] (Some ["out"]) in
  let w := world_of incoming no_faults in
  exists w' : World,
    organize_one false (["in"; "x.txt"], "Documents") (o, w) =
    Returns tt (add_moved ("x.txt", "Documents") o, w')
    /\ lookup ["out"; "Documents"; "x.txt"] (fs w') = Some (File "old")
    /\ lookup ["out"; "Documents"; "x_20240131_235959.txt"] (fs w') = Some (File "new")
    /\ lookup ["in"; "x.txt"] (fs w') = None.
Proof.
  cbv zeta.
  destruct (collision_gets_timestamped_name (init ["in"] (Some ["out"]))
              (world_of incoming no_faults) ["in"; "x.txt"] "Documents" "new")
    as (w' & Hstep & _ & _ & _ & Hold & Hnew & Hgone & _);
    try reflexivity.
  - discriminate.
  - exists w'. repeat split; assumption.
Defined.

(** C2 as stated fails in three situations in which the plain destination
    is taken.  (1) The occupant is the file itself, the source being the
    category directory: the file is renamed in place and nothing is left at
    the old name.  (2) The time-stamped path is a directory: the file goes
    into it under its old name.  (3) The operating system refuses the move:
    the file stays in the source and nothing appears at the new name. *)
Lemma collision_not_resolved :
  (let o := init ["out"; "Documents"] (Some ["out"]) in
   let w := world_of [ ([], Dir); (["out"], Dir); (["out"; "Documents"], Dir);
                       (["out"; "Documents"; "x.txt"], File "new") ] no_faults in
   let w' := snd (final (organize_files false (o, w))) in
   exists_ (destination_dir o </> "Documents" </> "x.txt") (fs w) = true
   /\ fs w' = [ ([], Dir); (["out"], Dir); (["out"; "Documents"], Dir);
                (["out"; "Documents"; "x_20240131_235959.txt"], File "new") ]
   /\ ~ collision_resolved o ["out"; "Documents"; "x.txt"] "Documents" w w')
  /\ (let o := init ["in"] (Some ["out"]) in
      let w := world_of (incoming ++ [(["out"; "Documents"; "x_20240131_235959.txt"], Dir)])
                        no_faults in
      let w' := snd (final (organize_files false (o, w))) in
      exists_ (destination_dir o </> "Documents" </> "x.txt") (fs w) = true
      /\ fs w' = [ ([], Dir); (["in"], Dir); (["out"], Dir); (["out"; "Documents"], Dir);
                   (["out"; "Documents"; "x.txt"], File "old");
                   (["out"; "Documents"; "x_20240131_235959.txt"], Dir);
                   (["out"; "Documents"; "x_20240131_235959.txt"; "x.txt"], File "new") ]
      /\ ~ collision_resolved o ["in"; "x.txt"] "Documents" w w')
  /\ (let o := init ["in"] (Some ["out"]) in
      let w := world_of incoming (deny ["in"; "x.txt"]) in
      let w' := snd (final (organize_files false (o, w))) in
      exists_ (destination_dir o </> "Documents" </> "x.txt") (fs w) = true
      /\ fs w' = incoming
      /\ ~ collision_resolved o ["in"; "x.txt"] "Documents" w w').
Proof.
  cbv zeta. unfold collision_resolved.
  repeat split; try (intros [H1 H2]; vm_compute in H1, H2; discriminate).
Qed.

(* ===================================================================== *)
(** ** Records of earlier runs *)
(* ===================================================================== *)

Section Accumulation.

Lemma with_records_fresh (o : FileOrganizer) :
  o = with_records (moved_files o) (errors o) (fresh o).
Proof. destruct o; unfold with_records, fresh, init; simpl. now rewrite !app_nil_r. Qed.

Lemma add_moved_with_records (m e : list (string * string)) (r : string * string)
      (o : FileOrganizer) :
  add_moved r (with_records m e o) = with_records m e (add_moved r o).
Proof. unfold add_moved, with_records; simpl. now rewrite app_assoc. Qed.

Lemma add_error_with_records (m e : list (string * string)) (r : string * string)
      (o : FileOrganizer) :
  add_error r (with_records m e o) = with_records m e (add_error r o).
Proof. unfold add_error, with_records; simpl. now rewrite app_assoc. Qed.

(** Nothing in the body of the loop reads the two lists: earlier records
    stay in front and the turn does what it does without them. *)
Lemma organize_one_with_records (dry_run : bool) (m e : list (string * string))
      (f : path * string) (o : FileOrganizer) (w : World) :
  organize_one dry_run f (with_records m e o, w) =
  with_records_outcome m e (organize_one dry_run f (o, w)).
Proof.
  destruct f as [p c]. destruct dry_run; [reflexivity |].
  destruct (organize_one_cases p c o w)
    as [(x & Hmk & H) | [(t1 & t2 & Hmk & Hmv & H) | (t1 & x & Hmk & Hmv & H)]];
    rewrite H; simpl.
  - exact (organize_one_mkdir_raises p c (with_records m e o) w x Hmk).
  - rewrite <- add_moved_with_records.
    exact (organize_one_moved p c (with_records m e o) w t1 t2 Hmk Hmv).
  - rewrite <- add_error_with_records.
    exact (organize_one_failed p c (with_records m e o) w t1 x Hmk Hmv).
Qed.

Lemma for_each_with_records (dry_run : bool) (m e : list (string * string))
      (files : list (path * string)) :
  forall (o : FileOrganizer) (w : World),
    for_each files (organize_one dry_run) (with_records m e o, w) =
    with_records_outcome m e (for_each files (organize_one dry_run) (o, w)).
Proof.
  induction files as [| f files IH]; intros o w; [reflexivity |].
  rewrite !for_each_step, organize_one_with_records.
  destruct (organize_one dry_run f (o, w)) as [[] [o1 w1] | x [o1 w1]]; simpl;
    [apply IH | reflexivity].
Qed.

End Accumulation.

(** C8, as the code has it.  The two lists are created empty by the
    constructor, not by [organize_files], and a run only appends to them:
    after a run they are the lists from before the run followed by exactly
    the records a newly constructed organizer collects in the same run,
    which also leaves the same file system.  So the summary holds the
    records of one run alone when the organizer is new. *)
Theorem records_accumulate_across_runs (dry_run : bool) (o : FileOrganizer) (w : World) :
  let s := final (organize_files dry_run (o, w)) in
  let s0 := final (organize_files dry_run (fresh o, w)) in
  moved_files (fst s) = moved_files o ++ moved_files (fst s0)
  /\ errors (fst s) = errors o ++ errors (fst s0)
  /\ fs (snd s) = fs (snd s0)
  /\ (forall source destination,
         moved_files (init source destination) = []
         /\ errors (init source destination) = []).
Proof.
  cbv zeta.
  assert (Hinit : forall source destination,
             moved_files (init source destination) = []
             /\ errors (init source destination) = []) by (split; reflexivity).
  destruct (lookup (source_dir o) (fs w)) as [[content |] |] eqn:Hsrc.
  - assert (Hfile : forall o1, source_dir o1 = source_dir o ->
                               is_file (source_dir o1) (fs w) = true)
      by (intros o1 ->; apply is_file_lookup; eauto).
    rewrite (organize_files_source_is_file dry_run o w (Hfile o eq_refl)).
    rewrite (organize_files_source_is_file dry_run (fresh o) w (Hfile (fresh o) eq_refl)).
    simpl. rewrite !app_nil_r. auto.
  - assert (Hdir : is_dir (source_dir o) (fs w) = true) by now apply is_dir_lookup.
    destruct (snapshot o w) as [| f files] eqn:E.
    + rewrite (organize_files_empty dry_run o w Hdir E).
      rewrite (organize_files_empty dry_run (fresh o) w Hdir E).
      simpl. rewrite !app_nil_r. auto.
    + assert (Hne : snapshot o w <> []) by (rewrite E; discriminate).
      rewrite (organize_files_run dry_run o w Hdir Hne).
      rewrite (organize_files_run dry_run (fresh o) w Hdir Hne).
      change (snapshot (fresh o) w) with (snapshot o w).
      change (header dry_run (fresh o)) with (header dry_run o).
      assert (Hloop :
                for_each (snapshot o w) (organize_one dry_run)
                         (o, emits (header dry_run o) w) =
                with_records_outcome (moved_files o) (errors o)
                  (for_each (snapshot o w) (organize_one dry_run)
                            (fresh o, emits (header dry_run o) w))).
      { rewrite <- for_each_with_records, <- with_records_fresh. reflexivity. }
      rewrite Hloop.
      destruct (for_each (snapshot o w) (organize_one dry_run)
                         (fresh o, emits (header dry_run o) w))
        as [[] [o1 w1] | x [o1 w1]]; simpl;
        rewrite ?print_summary_run; simpl; auto.
  - rewrite (organize_files_source_missing dry_run o w Hsrc).
    rewrite (organize_files_source_missing dry_run (fresh o) w Hsrc).
    simpl. rewrite !app_nil_r. auto.
Qed.

(** C8 as stated fails on the second run of one organizer: with a file the
    operating system refuses to move, each run produces one failure record,
    and after the second run the list holds two, the first of them from the
    earlier run. *)
Lemma second_run_keeps_first_records :
  let o := init ["d"] None in
  let w := world_of [ (["d"], Dir); (["d"; "a.txt"], File "A") ] (deny ["d"; "a.txt"]) in
  let s1 := final (organize_files false (o, w)) in
  let s2 := final (organize_files false s1) in
  let alone := final (organize_files false (fresh (fst s1), snd s1)) in
  errors (fst s1) = [("a.txt", "[Errno 13] Permission denied")]
  /\ errors (fst alone) = [("a.txt", "[Errno 13] Permission denied")]
  /\ errors (fst s2) = [("a.txt", "[Errno 13] Permission denied");
                        ("a.txt", "[Errno 13] Permission denied")]
  /\ errors (fst s2) <> errors (fst alone).
Proof.
  cbv zeta. repeat split.
  intro H. vm_compute in H. discriminate H.
Qed.

(* ===================================================================== *)
(** ** The listing *)
(* ===================================================================== *)

Section Snapshot.

Lemma path_eqb_true (p q : path) : path_eqb p q = true <-> p = q.
Proof. unfold path_eqb. destruct (path_eq_dec p q); split; congruence. Qed.

Lemma path_split (p : path) : p <> [] -> p = Path.parent p </> Path.name p.
Proof. intro H. unfold Path.parent, Path.name, Path.join. now apply app_removelast_last. Qed.

Lemma lookup_in (p : path) (t : filesystem) (n : node) :
  lookup p t = Some n -> In p (map fst t).
Proof.
  induction t as [| [q m] t IH]; simpl; [discriminate |].
  destruct (path_eq_dec p q); [now left | right; now apply IH].
Qed.

Lemma in_lookup (p : path) (t : filesystem) :
  In p (map fst t) -> exists n, lookup p t = Some n.
Proof.
  induction t as [| [q m] t IH]; simpl; [contradiction |].
  intros [-> | H].
  - destruct (path_eq_dec p p); [eauto | congruence].
  - destruct (path_eq_dec p q); [eauto | now apply IH].
Qed.

(** The listing of a directory is the existing paths directly below it. *)
Lemma children_iff (d : path) (t : filesystem) (q : path) :
  In q (children d t) <-> In q (map fst t) /\ q <> [] /\ Path.parent q = d.
Proof.
  unfold children. rewrite !in_map_iff. split.
  - intros ([q' n] & <- & Hin). apply filter_In in Hin as [Hin Hq]. simpl in *.
    split; [exists (q', n); auto |].
    destruct q' as [| x q']; [discriminate |]. apply path_eqb_true in Hq.
    split; [discriminate | exact Hq].
  - intros (([q' n] & <- & Hin) & Hne & Hpar). simpl in *.
    exists (q', n). split; [reflexivity |]. apply filter_In. split; [exact Hin |].
    simpl. destruct q' as [| x q']; [congruence |]. now apply path_eqb_true.
Qed.

(** The files the loop works on are the regular files directly below the
    source, each with the category of its name. *)
Lemma snapshot_iff (o : FileOrganizer) (w : World) (p : path) (c : string) :
  In (p, c) (snapshot o w) <->
  In p (children (source_dir o) (fs w)) /\ is_file p (fs w) = true
  /\ c = get_file_category p.
Proof.
  unfold snapshot, collect. rewrite in_map_iff. split.
  - intros (q & E & Hq). inversion E; subst. apply filter_In in Hq. tauto.
  - intros (Hin & Hfile & ->). exists p. split; [reflexivity |].
    apply filter_In. tauto.
Qed.

Lemma snapshot_child (o : FileOrganizer) (w : World) (p : path) (c : string) :
  In (p, c) (snapshot o w) -> p = source_dir o </> Path.name p.
Proof.
  intro H. apply snapshot_iff in H as (H & _ & _).
  apply children_iff in H as (_ & Hne & Hpar).
  rewrite <- Hpar at 1. now apply path_split.
Qed.

Lemma NoDup_map_filter {A B : Type} (g : A -> B) (f : A -> bool) (l : list A) :
  NoDup (map g l) -> NoDup (map g (filter f l)).
Proof.
  induction l as [| a l IH]; simpl; intro H; [constructor |].
  inversion H as [| x xs Hnotin Hnodup]; subst.
  destruct (f a); simpl; [| now apply IH].
  constructor; [| now apply IH].
  intro Hin. apply Hnotin. apply in_map_iff in Hin as (b & E & Hb).
  apply filter_In in Hb as [Hb _]. apply in_map_iff. eauto.
Qed.

(** No file is listed twice when no path is entered twice. *)
Lemma snapshot_nodup (o : FileOrganizer) (w : World) :
  NoDup (map fst (fs w)) -> NoDup (map fst (snapshot o w)).
Proof.
  intro H. unfold snapshot, collect.
  rewrite map_map. simpl. rewrite map_id.
  apply NoDup_filter. unfold children. now apply NoDup_map_filter.
Qed.

Lemma snapshot_names (o : FileOrganizer) (w : World) (f f' : path * string) :
  In f (snapshot o w) -> In f' (snapshot o w) ->
  Path.name (fst f) = Path.name (fst f') -> fst f = fst f'.
Proof.
  destruct f as [p c], f' as [p' c']. simpl. intros H H' E.
  rewrite (snapshot_child o w p c H), (snapshot_child o w p' c' H'), E.
  reflexivity.
Qed.

End Snapshot.

(* ===================================================================== *)
(** ** Runs without collisions *)
(* ===================================================================== *)

Section PlainMoves.

(** Moving a file whose destination is free: it arrives under its own name
    in the category directory, which exists afterwards; nothing else
    changes and the clock is not read. *)
Lemma organize_one_plain (p : path) (c content : string) (o : FileOrganizer) (w : World) :
  let cd := destination_dir o </> c in
  lookup p (fs w) = Some (File content) ->
  is_dir (destination_dir o) (fs w) = true ->
  is_file cd (fs w) = false ->
  lookup (cd </> Path.name p) (fs w) = None ->
  faults w cd cd = None ->
  faults w p (cd </> Path.name p) = None ->
  exists t' : filesystem,
    organize_one false (p, c) (o, w) =
    Returns tt (add_moved (Path.name p, c) o,
                emit (Moved (Path.name p) c) (set_fs t' w))
    /\ lookup p t' = None
    /\ lookup cd t' = Some Dir
    /\ lookup (cd </> Path.name p) t' = Some (File content)
    /\ (forall q, q <> p -> q <> cd -> q <> cd </> Path.name p ->
                  lookup q t' = lookup q (fs w)).
Proof.
  intros cd Hp Hdest Hcd Hfree Hallowed Hfault.
  destruct (mkdir_exist_ok_succeeds (faults w) _ c _ Hdest Hcd Hallowed) as [t1 Hmk].
  fold cd in Hmk.
  pose proof (mkdir_exist_ok_inr _ _ _ _ Hmk) as (Hcd1 & Hother & _).
  assert (Hpcd : p <> cd).
  { intros ->. unfold is_file in Hcd. now rewrite Hp in Hcd. }
  assert (Hpdst : p <> cd </> Path.name p) by (intro E; rewrite <- E in Hfree; congruence).
  assert (Hdcd : cd </> Path.name p <> cd) by apply join_neq.
  assert (Hfree1 : exists_ (cd </> Path.name p) t1 = false).
  { unfold exists_. now rewrite Hother, Hfree. }
  assert (Hat : destination_at cd p (set_fs t1 w) = cd </> Path.name p).
  { unfold destination_at. simpl. now rewrite Hfree1. }
  assert (Hclock : after_clock cd p (set_fs t1 w) = set_fs t1 w).
  { unfold after_clock. simpl. now rewrite Hfree1. }
  assert (Hmove : shutil_move (faults w) p (destination_at cd p (set_fs t1 w)) t1 =
                  inr (write (cd </> Path.name p) (File content) (unlink p t1))).
  { rewrite Hat. apply shutil_move_file; try assumption.
    - now rewrite Hother.
    - unfold is_dir, exists_ in *. destruct (lookup (cd </> Path.name p) t1); congruence.
    - rewrite parent_join. now apply is_dir_lookup. }
  exists (write (cd </> Path.name p) (File content) (unlink p t1)).
  split.
  { rewrite (organize_one_moved p c o w t1 _ Hmk Hmove). fold cd. now rewrite Hclock. }
  split; [rewrite lookup_write_ne by exact Hpdst; apply lookup_unlink_eq |].
  split.
  { rewrite lookup_write_ne, lookup_unlink_ne by (try exact Hpcd; congruence).
    exact Hcd1. }
  split; [apply lookup_write_eq |].
  intros q Hq Hqcd Hqdst.
  rewrite lookup_write_ne, lookup_unlink_ne by assumption. now apply Hother.
Qed.

(** The loop over files whose destinations are all free, in a world that
    refuses nothing. *)
Lemma loop_moves_all (dest : path) (files : list (path * string)) :
  NoDup (map fst files) ->
  (forall f f', In f files -> In f' files ->
                Path.name (fst f) = Path.name (fst f') -> fst f = fst f') ->
  forall (o : FileOrganizer) (w : World),
    destination_dir o = dest ->
    (forall s d, faults w s d = None) ->
    is_dir dest (fs w) = true ->
    (forall p c, In (p, c) files ->
                 is_file (dest </> c) (fs w) = false
                 /\ is_file p (fs w) = true
                 /\ lookup (dest </> c </> Path.name p) (fs w) = None) ->
    exists w' : World,
      for_each files (organize_one false) (o, w) =
      Returns tt (mk_FileOrganizer (source_dir o) dest
                                   (moved_files o ++ plain_records files) (errors o), w')
      /\ ticks w' = ticks w
      /\ faults w' = faults w
      /\ stdout w' = stdout w ++ map (fun f => Moved (Path.name (fst f)) (snd f)) files
      /\ (forall p c, In (p, c) files ->
                      lookup (dest </> c </> Path.name p) (fs w') = lookup p (fs w)
                      /\ lookup p (fs w') = None
                      /\ lookup (dest </> c) (fs w') = Some Dir)
      /\ (forall q, ~ run_touches dest files q -> lookup q (fs w') = lookup q (fs w)).
Proof.
  induction files as [| [p c] files IH]; intros Hnodup Hnames o w Hdest Hfaults Hdir Hready.
  - exists w. simpl. unfold ret, plain_records. simpl. rewrite !app_nil_r.
    destruct o; simpl in *; subst. repeat split; intros; contradiction.
  - inversion Hnodup as [| x xs Hnotin Hnodup' [Ex Exs]]. clear Hnodup. subst dest.
    destruct (Hready p c (or_introl eq_refl)) as (Hcd & Hfile & Hfree).
    apply is_file_lookup in Hfile as [content Hp].
    destruct (organize_one_plain p c content o w Hp Hdir Hcd Hfree (Hfaults _ _)
                (Hfaults _ _))
      as (t' & Hstep & Hgone & Hcdir & Harrived & Hframe).
    set (cd := destination_dir o </> c) in *.
    (* what the files still to come see after this turn *)
    assert (Hlater : forall p' c', In (p', c') files ->
               p' <> p /\ p' <> cd /\ p' <> cd </> Path.name p
               /\ cd </> Path.name p <> destination_dir o </> c' </> Path.name p'
               /\ p <> destination_dir o </> c'
               /\ p <> destination_dir o </> c' </> Path.name p').
    { intros p' c' Hin.
      destruct (Hready p' c' (or_intror Hin)) as (Hcd' & Hfile' & Hfree').
      apply is_file_lookup in Hfile' as [content' Hp'].
      assert (Hpp : p' <> p).
      { intros ->. apply Hnotin. apply in_map_iff. exists (p, c'). auto. }
      split; [exact Hpp |].
      split; [intros ->; unfold is_file in Hcd; now rewrite Hp' in Hcd |].
      split; [intros ->; congruence |].
      split.
      { intro E. apply join_inj in E as [_ E]. apply Hpp. symmetry.
        apply (Hnames (p, c) (p', c')); simpl; auto. }
      split; [intros ->; unfold is_file in Hcd'; now rewrite Hp in Hcd' |].
      intros E. rewrite <- E in Hfree'. congruence. }
    destruct (IH Hnodup'
                 (fun f f' Hf Hf' => Hnames f f' (or_intror Hf) (or_intror Hf'))
                 (add_moved (Path.name p, c) o)
                 (emit (Moved (Path.name p) c) (set_fs t' w)))
      as (w' & Hloop & Hticks & Hfl & Hout & Hfiles & Hrest).
    + reflexivity.
    + exact Hfaults.
    + simpl. apply is_dir_lookup. apply is_dir_lookup in Hdir.
      rewrite Hframe; [exact Hdir | | |].
      * intro E. rewrite E in Hdir. congruence.
      * subst cd. intro E. symmetry in E. now apply join_neq in E.
      * subst cd. intro E. apply (f_equal (@length _)) in E.
        rewrite !join_length in E. lia.
    + intros p' c' Hin. simpl.
      destruct (Hready p' c' (or_intror Hin)) as (Hcd' & Hfile' & Hfree').
      destruct (Hlater p' c' Hin) as (H1 & H2 & H3 & H4 & H5 & H6).
      split; [| split].
      * unfold is_file.
        destruct (path_eq_dec (destination_dir o </> c') cd) as [E | Hne];
          [rewrite E, Hcdir; reflexivity |].
        destruct (path_eq_dec (destination_dir o </> c') p) as [E | Hne'];
          [rewrite E, Hgone; reflexivity |].
        rewrite Hframe; [exact Hcd' | exact Hne' | exact Hne |].
        intro E. apply (f_equal (@length _)) in E. subst cd.
        rewrite !join_length in E. lia.
      * unfold is_file. rewrite Hframe by assumption. exact Hfile'.
      * rewrite Hframe; [exact Hfree' | congruence | | congruence].
        intro E. apply (f_equal (@length _)) in E. subst cd.
        rewrite !join_length in E. lia.
    + exists w'. rewrite for_each_step, Hstep, Hloop. simpl in *.
      split.
      { unfold plain_records. simpl. rewrite <- app_assoc. reflexivity. }
      split; [exact Hticks |]. split; [exact Hfl |].
      split; [rewrite Hout, <- app_assoc; reflexivity |].
      fold cd in Hfiles, Hrest.
      assert (Hkept : forall q, (forall p' c', In (p', c') files ->
                         q <> p' /\ q <> destination_dir o </> c'
                         /\ q <> destination_dir o </> c' </> Path.name p') ->
                      lookup q (fs w') = lookup q t').
      { intros q Hq. apply Hrest. intros (p' & c' & Hin & Hcase).
        destruct (Hq p' c' Hin) as (A & B & C). tauto. }
      split.
      * intros p' c' [E | Hin].
        -- inversion E; subst p' c'. fold cd.
           assert (Hcd_kept : lookup cd (fs w') = Some Dir).
           { destruct (in_dec string_dec c (map snd files)) as [Hc | Hc].
             - apply in_map_iff in Hc as ([p' c'] & E' & Hin'). simpl in E'. subst c'.
               now apply (Hfiles p' c Hin').
             - rewrite Hkept; [exact Hcdir |]. intros p' c' Hin.
               destruct (Hlater p' c' Hin) as (H1 & H2 & H3 & H4 & H5 & H6).
               split; [congruence |]. split.
               + intro E'. apply join_inj in E' as [_ E']. apply Hc.
                 apply in_map_iff. exists (p', c'). auto.
               + intro E'. apply (f_equal (@length _)) in E'. subst cd.
                 rewrite !join_length in E'. lia. }
           split; [| split; [| exact Hcd_kept]].
           ++ rewrite Hkept; [now rewrite Harrived, Hp |]. intros p' c' Hin.
              destruct (Hlater p' c' Hin) as (H1 & H2 & H3 & H4 & H5 & H6).
              split; [congruence |]. split; [| exact H4].
              intro E'. apply (f_equal (@length _)) in E'. subst cd.
              rewrite !join_length in E'. lia.
           ++ rewrite Hkept; [exact Hgone |]. intros p' c' Hin.
              destruct (Hlater p' c' Hin) as (H1 & H2 & H3 & H4 & H5 & H6).
              split; [congruence |]. split; assumption.
        -- destruct (Hfiles p' c' Hin) as (A & B & C).
           destruct (Hlater p' c' Hin) as (H1 & H2 & H3 & H4 & H5 & H6).
           split; [| split; assumption].
           rewrite A. now apply Hframe.
      * intros q Hq.
        assert (Hq' : ~ run_touches (destination_dir o) files q).
        { intros (p' & c' & Hin & Hcase). apply Hq. exists p', c'. split; [now right | exact Hcase]. }
        rewrite (Hrest q Hq'). simpl.
        apply Hframe; intro E; apply Hq; exists p, c; (split; [now left |]); subst cd; tauto.
Qed.

End PlainMoves.

Section PlainRun.

Lemma filter_none {A : Type} (f : A -> bool) (l : list A) :
  (forall a, In a l -> f a = false) -> filter f l = [].
Proof.
  induction l as [| a l IH]; intro H; simpl; [reflexivity |].
  rewrite (H a (or_introl eq_refl)). apply IH. intros b Hb. apply H. now right.
Qed.

Lemma run_touches_dec (dest : path) (files : list (path * string)) (q : path) :
  {run_touches dest files q} + {~ run_touches dest files q}.
Proof.
  induction files as [| [p c] files IH].
  - right. intros (p & c & [] & _).
  - destruct IH as [Hyes | Hno].
    + left. destruct Hyes as (p' & c' & Hin & H). exists p', c'. split; [now right | exact H].
    + destruct (path_eq_dec q p) as [E1 | N1];
        [left; exists p, c; split; [now left | tauto] |].
      destruct (path_eq_dec q (dest </> c)) as [E2 | N2];
        [left; exists p, c; split; [now left | tauto] |].
      destruct (path_eq_dec q (dest </> c </> Path.name p)) as [E3 | N3];
        [left; exists p, c; split; [now left | tauto] |].
      right. intros (p' & c' & [E | Hin] & H).
      * inversion E; subst. tauto.
      * apply Hno. exists p', c'. tauto.
Qed.

(** A run over a directory in a well-formed file system, with every
    category directory creatable, every destination free and nothing
    refused: every listed file is moved. *)
Lemma run_moves_all (o : FileOrganizer) (w : World) :
  NoDup (map fst (fs w)) ->
  is_dir (source_dir o) (fs w) = true ->
  category_dirs_free o w ->
  (forall p c, In (p, c) (snapshot o w) ->
               lookup (destination_dir o </> c </> Path.name p) (fs w) = None) ->
  (forall s d, faults w s d = None) ->
  exists (o' : FileOrganizer) (w' : World),
    organize_files false (o, w) = Returns tt (o', w')
    /\ source_dir o' = source_dir o
    /\ destination_dir o' = destination_dir o
    /\ moved_files o' = moved_files o ++ plain_records (snapshot o w)
    /\ errors o' = errors o
    /\ ticks w' = ticks w
    /\ (forall p c, In (p, c) (snapshot o w) ->
                    lookup (destination_dir o </> c </> Path.name p) (fs w') = lookup p (fs w)
                    /\ lookup p (fs w') = None
                    /\ lookup (destination_dir o </> c) (fs w') = Some Dir)
    /\ (forall q, ~ run_touches (destination_dir o) (snapshot o w) q ->
                  lookup q (fs w') = lookup q (fs w)).
Proof.
  intros Hwf Hdir [Hdest Hfree] Hdst Hfaults.
  assert (Hcases : snapshot o w = [] \/ snapshot o w <> [])
    by (destruct (snapshot o w); [now left | right; discriminate]).
  destruct Hcases as [Hnil | Hne].
  - rewrite (organize_files_empty false o w Hdir Hnil).
    exists o, (emits (header false o ++ [NoFilesFound]) w). rewrite Hnil. simpl.
    rewrite app_nil_r. repeat split; (contradiction || reflexivity).
  - rewrite (organize_files_run false o w Hdir Hne).
    destruct (loop_moves_all (destination_dir o) (snapshot o w)
                (snapshot_nodup o w Hwf) (snapshot_names o w)
                o (emits (header false o) w) eq_refl Hfaults Hdest)
      as (w1 & Hloop & Hticks & Hfl & Hout & Hfiles & Hrest).
    { intros p c Hin. split; [now apply (Hfree p c) |].
      split; [| now apply Hdst]. now apply snapshot_entry in Hin. }
    rewrite Hloop, print_summary_run.
    eexists _, _. split; [reflexivity |]. simpl.
    split; [reflexivity |]. split; [reflexivity |]. split; [reflexivity |].
    split; [reflexivity |]. split; [exact Hticks |].
    split; [exact Hfiles | exact Hrest].
Qed.

End PlainRun.

(** X1. One turn of the loop for a regular file, in a run that moves
    files, where the destination is a directory, the category directory's
    path is not a regular file, nothing is at category directory / file
    name, and the operating system refuses neither the creation of the
    category directory nor the move.  The file is moved there under its own
    name: the record (name, category) is appended, no error is recorded,
    "Moved" is printed, the category directory exists afterwards, the file
    with its content is at category directory / name and no longer at its
    old path, the clock is not read, and no other path changes. *)
Theorem plain_move_lands_in_category
    (p : path) (c content : string) (o : FileOrganizer) (w : World) :
  let cd := destination_dir o </> c in
  lookup p (fs w) = Some (File content) ->
  is_dir (destination_dir o) (fs w) = true ->
  is_file cd (fs w) = false ->
  lookup (cd </> Path.name p) (fs w) = None ->
  faults w cd cd = None ->
  faults w p (cd </> Path.name p) = None ->
  exists (o' : FileOrganizer) (w' : World),
    organize_one false (p, c) (o, w) = Returns tt (o', w')
    /\ moved_files o' = moved_files o ++ [(Path.name p, c)]
    /\ errors o' = errors o
    /\ stdout w' = stdout w ++ [Moved (Path.name p) c]
    /\ ticks w' = ticks w
    /\ lookup p (fs w') = None
    /\ is_dir cd (fs w') = true
    /\ lookup (cd </> Path.name p) (fs w') = Some (File content)
    /\ (forall q, q <> p -> q <> cd -> q <> cd </> Path.name p ->
                  lookup q (fs w') = lookup q (fs w)).
Proof.
  intros cd Hp Hdest Hcd Hfree Hallowed Hfault.
  destruct (organize_one_plain p c content o w Hp Hdest Hcd Hfree Hallowed Hfault)
    as (t' & Hstep & Hgone & Hcdir & Harrived & Hframe).
  eexists _, _. split; [exact Hstep |]. simpl.
  repeat split; try assumption. now apply is_dir_lookup.
Qed.

Lemma plain_move_lands_in_category_witness :
  let o := init ["in"] (Some ["out"]) in
  let w := world_of [ ([], Dir); (["in"], Dir); (["in"; "song.MP3"], File "la");
                      (["out"], Dir) ] no_faults in
  exists (o' : FileOrganizer) (w' : World),
    organize_one false (["in"; "song.MP3"], "Music") (o, w) = Returns tt (o', w')
    /\ moved_files o' = [("song.MP3", "Music")]
    /\ lookup ["in"; "song.MP3"] (fs w') = None
    /\ lookup ["out"; "Music"; "song.MP3"] (fs w') = Some (File "la").
Proof.
  cbv zeta.
  destruct (plain_move_lands_in_category ["in"; "song.MP3"] "Music" "la"
              (init ["in"] (Some ["out"]))
              (world_of [ ([], Dir); (["in"], Dir); (["in"; "song.MP3"], File "la");
                          (["out"], Dir) ] no_faults))
    as (o' & w' & Hstep & Hm & _ & _ & _ & Hgone & _ & Harrived & _);
    try reflexivity.
  exists o', w'. repeat split; assumption.
Defined.

(** X2. A run over a directory, in a file system that enters no path twice,
    with the destination a directory in which no needed category names a
    regular file, every destination path free and the operating system
    refusing nothing (no creation of a directory and no move), moves every
    listed file: the run returns, the records of the listed files are
    appended in listing order, no error is recorded, each file is at
    destination / category / name with the content it had and gone from the
    source, its category directory exists, the clock is never read, and no
    path other than the listed files, their category directories and their
    destinations changes. *)
Theorem organize_moves_every_file (o : FileOrganizer) (w : World) :
  NoDup (map fst (fs w)) ->
  is_dir (source_dir o) (fs w) = true ->
  category_dirs_free o w ->
  (forall p c, In (p, c) (snapshot o w) ->
               lookup (destination_dir o </> c </> Path.name p) (fs w) = None) ->
  (forall s d, faults w s d = None) ->
  exists (o' : FileOrganizer) (w' : World),
    organize_files false (o, w) = Returns tt (o', w')
    /\ moved_files o' =
       moved_files o ++ map (fun f => (Path.name (fst f), get_file_category (fst f)))
                            (snapshot o w)
    /\ errors o' = errors o
    /\ ticks w' = ticks w
    /\ (forall p c content,
           In (p, c) (snapshot o w) ->
           lookup p (fs w) = Some (File content) ->
           lookup (destination_dir o </> c </> Path.name p) (fs w') = Some (File content)
           /\ lookup p (fs w') = None
           /\ is_dir (destination_dir o </> c) (fs w') = true)
    /\ (forall q, ~ run_touches (destination_dir o) (snapshot o w) q ->
                  lookup q (fs w') = lookup q (fs w)).
Proof.
  intros Hwf Hdir Hdirs Hdst Hfaults.
  destruct (run_moves_all o w Hwf Hdir Hdirs Hdst Hfaults)
    as (o' & w' & Hrun & _ & _ & Hm & He & Hticks & Hfiles & Hrest).
  exists o', w'. split; [exact Hrun |].
  split.
  { rewrite Hm. f_equal. unfold plain_records. apply map_ext_in.
    intros [p c] Hin. apply snapshot_entry in Hin as [_ ->]. reflexivity. }
  split; [exact He |]. split; [exact Hticks |].
  split; [| exact Hrest].
  intros p c content Hin Hp. destruct (Hfiles p c Hin) as (A & B & C).
  rewrite A. split; [exact Hp |]. split; [exact B |]. now apply is_dir_lookup.
Qed.

Ltac concrete_nodup :=
  repeat (constructor; [simpl; intuition discriminate |]); constructor.

Ltac each_listed H :=
  vm_compute in H;
  repeat (destruct H as [H | H]; [inversion H; subst; clear H | ]);
  try contradiction.

Lemma organize_moves_every_file_witness :
  let o := init ["d"] None in
  let w := world_of five_files no_faults in
  exists (o' : FileOrganizer) (w' : World),
    organize_files false (o, w) = Returns tt (o', w')
    /\ moved_files o' =
       [ ("photo.png", "Images"); ("song.mp3", "Music"); ("notes.txt", "Documents");
         ("archive.zip", "Archives"); ("data.xyz", "Others") ]
    /\ errors o' = []
    /\ lookup ["d"; "Music"; "song.mp3"] (fs w') = Some (File "S")
    /\ lookup ["d"; "song.mp3"] (fs w') = None.
Proof.
  cbv zeta.
  destruct (organize_moves_every_file (init ["d"] None) (world_of five_files no_faults))
    as (o' & w' & Hrun & Hm & He & _ & Hfiles & _).
  - concrete_nodup.
  - reflexivity.
  - split; [reflexivity |]. intros p c Hin. each_listed Hin; split; reflexivity.
  - intros p c Hin. each_listed Hin; reflexivity.
  - reflexivity.
  - destruct (Hfiles ["d"; "song.mp3"] "Music" "S") as (A & B & _);
      [vm_compute; tauto | reflexivity |].
    exists o', w'. repeat split; assumption.
Defined.

(** X3. After such a run, nothing is left to organize: the source has no
    regular file directly in it any more, and another run of the same
    organizer, dry or not, prints the header and "No files found" and
    changes neither the records nor the file system. *)
Theorem organize_again_finds_nothing (o : FileOrganizer) (w : World) :
  NoDup (map fst (fs w)) ->
  is_dir (source_dir o) (fs w) = true ->
  category_dirs_free o w ->
  (forall p c, In (p, c) (snapshot o w) ->
               lookup (destination_dir o </> c </> Path.name p) (fs w) = None) ->
  (forall s d, faults w s d = None) ->
  exists (o' : FileOrganizer) (w' : World),
    organize_files false (o, w) = Returns tt (o', w')
    /\ snapshot o' w' = []
    /\ forall dry_run,
         organize_files dry_run (o', w') =
         Returns tt (o', emits (header dry_run o' ++ [NoFilesFound]) w').
Proof.
  intros Hwf Hdir Hdirs Hdst Hfaults.
  destruct (run_moves_all o w Hwf Hdir Hdirs Hdst Hfaults)
    as (o' & w' & Hrun & Hsrc & _ & _ & _ & _ & Hfiles & Hrest).
  exists o', w'. split; [exact Hrun |].
  assert (Hnone : snapshot o' w' = []).
  { unfold snapshot, collect. rewrite Hsrc.
    rewrite (filter_none (fun item => is_file item (fs w'))); [reflexivity |].
    intros q Hq. apply children_iff in Hq as (Hin & Hne & Hpar).
    destruct (is_file q (fs w')) eqn:Hfile; [exfalso | reflexivity].
    apply is_file_lookup in Hfile as [content Hq].
    destruct (run_touches_dec (destination_dir o) (snapshot o w) q)
      as [(p & c & Hlisted & Hcase) | Hno].
    - destruct (Hfiles p c Hlisted) as (A & B & C).
      destruct Hcase as [-> | [-> | ->]]; try congruence.
      rewrite parent_join in Hpar.
      pose proof (snapshot_child o w p c Hlisted) as Hp.
      rewrite <- Hpar in Hp. rewrite <- Hp in A.
      pose proof (Hdst p c Hlisted) as Hfree. rewrite <- Hp in Hfree.
      apply snapshot_entry in Hlisted as [Hf _].
      apply is_file_lookup in Hf as [content' Hf]. congruence.
    - rewrite (Hrest q Hno) in Hq. apply Hno.
      exists q, (get_file_category q). split; [| now left].
      apply snapshot_iff. split; [| split; [| reflexivity]].
      + apply children_iff. split; [now apply lookup_in in Hq | tauto].
      + apply is_file_lookup. eauto. }
  split; [exact Hnone |].
  intro dry_run. apply organize_files_empty; [| exact Hnone].
  rewrite Hsrc. apply is_dir_lookup. apply is_dir_lookup in Hdir.
  destruct (run_touches_dec (destination_dir o) (snapshot o w) (source_dir o))
    as [(p & c & Hlisted & Hcase) | Hno].
  - destruct (Hfiles p c Hlisted) as (A & B & C).
    destruct Hcase as [E | [E | E]].
    + apply snapshot_entry in Hlisted as [Hf _].
      apply is_file_lookup in Hf as [content' Hf]. congruence.
    + now rewrite E.
    + pose proof (Hdst p c Hlisted) as Hfree. congruence.
  - now rewrite (Hrest _ Hno).
Qed.

Lemma organize_again_finds_nothing_witness :
  let o := init ["d"] None in
  let w := world_of five_files no_faults in
  exists (o' : FileOrganizer) (w' : World),
    organize_files false (o, w) = Returns tt (o', w')
    /\ snapshot o' w' = []
    /\ organize_files false (o', w') =
       Returns tt (o', emits (header false o' ++ [NoFilesFound]) w').
Proof.
  cbv zeta.
  destruct (organize_again_finds_nothing (init ["d"] None) (world_of five_files no_faults))
    as (o' & w' & Hrun & Hnone & Hagain).
  - concrete_nodup.
  - reflexivity.
  - split; [reflexivity |]. intros p c Hin. each_listed Hin; split; reflexivity.
  - intros p c Hin. each_listed Hin; reflexivity.
  - reflexivity.
  - exists o', w'. split; [exact Hrun |]. split; [exact Hnone | apply Hagain].
Defined.

(* ===================================================================== *)
(** ** What a run leaves alone, and how it can fail *)
(* ===================================================================== *)

Section Frame.

(** One turn of the loop changes at most the file, its category directory
    and what is in that directory, two levels deep. *)
Lemma organize_one_frame (p : path) (c : string) (o : FileOrganizer) (w : World)
      (q : path) :
  let cd := destination_dir o </> c in
  q <> p -> q <> cd -> Path.parent q <> cd -> Path.parent (Path.parent q) <> cd ->
  lookup q (fs (snd (final (organize_one false (p, c) (o, w))))) = lookup q (fs w)
  /\ destination_dir (fst (final (organize_one false (p, c) (o, w)))) = destination_dir o.
Proof.
  intros cd Hp Hcd Hpar Hpar2.
  assert (Hmk : forall t1, mkdir_exist_ok (faults w) cd (fs w) = inr t1 -> lookup q t1 = lookup q (fs w)).
  { intros t1 H. apply mkdir_exist_ok_inr in H as (_ & Hother & _). now apply Hother. }
  destruct (organize_one_cases p c o w)
    as [(e & _ & H) | [(t1 & t2 & H1 & H2 & H) | (t1 & e & H1 & _ & H)]];
    rewrite H; simpl; (split; [| reflexivity]).
  - reflexivity.
  - apply shutil_move_inr in H2 as (real_dst & n & _ & -> & _ & Hreal).
    destruct (destination_at_join (destination_dir o </> c) p (set_fs t1 w)) as [x Hx].
    rewrite Hx in Hreal.
    assert (Hfar : q <> real_dst).
    { intro E. rewrite E in Hpar, Hpar2.
      destruct Hreal as [[_ ->] | [_ [-> _]]].
      - apply Hpar. apply parent_join.
      - apply Hpar2. rewrite !parent_join. reflexivity. }
    rewrite lookup_write_ne, lookup_unlink_ne by assumption.
    now apply Hmk.
  - destruct (destination_at_join (destination_dir o </> c) p (set_fs t1 w)) as [x Hx].
    rewrite interrupted_move_lookup; [now apply Hmk | |]; rewrite Hx; intro E.
    + apply Hpar. rewrite E. apply parent_join.
    + apply Hpar2. rewrite E, !parent_join. reflexivity.
Qed.

Lemma for_each_frame (q : path) (files : list (path * string)) :
  forall (o : FileOrganizer) (w : World),
    ~ run_reaches (destination_dir o) files q ->
    lookup q (fs (snd (final (for_each files (organize_one false) (o, w)))))
    = lookup q (fs w).
Proof.
  induction files as [| [p c] files IH]; intros o w Hq; [reflexivity |].
  assert (Hhead : q <> p /\ q <> destination_dir o </> c
                  /\ Path.parent q <> destination_dir o </> c
                  /\ Path.parent (Path.parent q) <> destination_dir o </> c).
  { repeat split; intro E; apply Hq; exists p, c; (split; [now left | tauto]). }
  destruct Hhead as (H1 & H2 & H3 & H4).
  destruct (organize_one_frame p c o w q H1 H2 H3 H4) as [Hfs Hdest].
  rewrite for_each_step.
  destruct (organize_one false (p, c) (o, w)) as [[] [o1 w1] | e [o1 w1]];
    simpl in *; [| exact Hfs].
  rewrite IH; [exact Hfs |].
  rewrite Hdest. intros (p' & c' & Hin & Hcase). apply Hq.
  exists p', c'. split; [now right | exact Hcase].
Qed.

End Frame.

(** X4. Whatever a run does and however it ends, it leaves every path alone
    that is neither a listed file, nor the category directory of a listed
    file, nor inside such a directory (two levels deep): sub-directories of
    the source and what they hold, and files elsewhere, are as before. *)
Theorem run_leaves_other_paths (dry_run : bool) (o : FileOrganizer) (w : World)
    (q : path) :
  ~ run_reaches (destination_dir o) (snapshot o w) q ->
  lookup q (fs (snd (final (organize_files dry_run (o, w))))) = lookup q (fs w).
Proof.
  intro Hq.
  destruct (lookup (source_dir o) (fs w)) as [[content |] |] eqn:Hsrc.
  - rewrite organize_files_source_is_file by (apply is_file_lookup; eauto). reflexivity.
  - assert (Hdir : is_dir (source_dir o) (fs w) = true) by now apply is_dir_lookup.
    assert (Hcases : snapshot o w = [] \/ snapshot o w <> [])
      by (destruct (snapshot o w); [now left | right; discriminate]).
    destruct Hcases as [Hnil | Hne].
    + now rewrite (organize_files_empty dry_run o w Hdir Hnil).
    + rewrite (organize_files_run dry_run o w Hdir Hne).
      destruct dry_run.
      * rewrite for_each_dry, print_summary_run. reflexivity.
      * pose proof (for_each_frame q (snapshot o w) o (emits (header false o) w) Hq) as H.
        destruct (for_each (snapshot o w) (organize_one false) _)
          as [[] [o1 w1] | e [o1 w1]]; [rewrite print_summary_run |]; exact H.
  - now rewrite organize_files_source_missing.
Qed.

Lemma run_leaves_other_paths_witness :
  let o := init ["d"] None in
  let w := world_of [ (["d"], Dir); (["d"; "a.txt"], File "A"); (["d"; "sub"], Dir);
                      (["d"; "sub"; "inner.txt"], File "I"); (["e.txt"], File "E") ]
                    no_faults in
  lookup ["d"; "sub"; "inner.txt"] (fs (snd (final (organize_files false (o, w)))))
  = Some (File "I").
Proof.
  cbv zeta.
  rewrite (run_leaves_other_paths false (init ["d"] None)
             (world_of [ (["d"], Dir); (["d"; "a.txt"], File "A"); (["d"; "sub"], Dir);
                         (["d"; "sub"; "inner.txt"], File "I"); (["e.txt"], File "E") ]
                       no_faults)
             ["d"; "sub"; "inner.txt"]).
  - reflexivity.
  - intros (p & c & Hin & Hcase). each_listed Hin.
    vm_compute in Hcase. intuition discriminate.
Defined.

(** X5. The category directory is created outside the guarded block
    (line 65).  Take a run that moves files, over a source that is a
    directory, and a listed file such that the turns of the files listed
    before it return and the creation of its category directory raises when
    the loop reaches it.  Then that exception leaves [organize_files], and
    nothing is undone: the organizer and the world are exactly those the
    earlier turns left, in which each earlier file has its one record, and
    the file and those listed after it have none. *)
Theorem mkdir_error_aborts_run
    (o : FileOrganizer) (w : World) (pre post : list (path * string))
    (p : path) (c : string) (o1 : FileOrganizer) (w1 : World) (e : exn) :
  is_dir (source_dir o) (fs w) = true ->
  snapshot o w = pre ++ (p, c) :: post ->
  for_each pre (organize_one false) (o, emits (header false o) w) = Returns tt (o1, w1) ->
  mkdir_exist_ok (faults w1) (destination_dir o1 </> c) (fs w1) = inl e ->
  organize_files false (o, w) = Raises e (o1, w1)
  /\ exists outcomes : list (option exn),
       length outcomes = length pre
       /\ moved_files o1 = moved_files o ++ successes pre outcomes
       /\ errors o1 = errors o ++ failures pre outcomes
       /\ length (moved_files o1) + length (errors o1) =
          length (moved_files o) + length (errors o) + length pre.
Proof.
  intros Hdir Hsnap Hpre Hmk.
  assert (Hne : snapshot o w <> []).
  { rewrite Hsnap. intro E. apply (f_equal (@length _)) in E.
    rewrite length_app in E. simpl in E. lia. }
  split.
  - rewrite (organize_files_run false o w Hdir Hne), Hsnap, for_each_app, Hpre.
    rewrite for_each_step.
    now rewrite (organize_one_mkdir_raises p c o1 w1 e Hmk).
  - apply loop_records in Hpre as (outcomes & Hlen & _ & _ & Hm & He).
    exists outcomes. repeat split; try assumption.
    rewrite Hm, He, !length_app.
    pose proof (successes_failures_length _ _ Hlen). lia.
Qed.

Lemma mkdir_error_aborts_run_witness :
  let o := init ["d"] None in
  let w := world_of [ (["d"], Dir); (["d"; "a.txt"], File "A");
                      (["d"; "photo.png"], File "P"); (["d"; "Images"], File "I") ]
                    no_faults in
  let o1 := add_moved ("a.txt", "Documents") o in
  let w1 := emit (Moved "a.txt" "Documents")
                 (set_fs [ (["d"], Dir); (["d"; "photo.png"], File "P");
                           (["d"; "Images"], File "I"); (["d"; "Documents"], Dir);
                           (["d"; "Documents"; "a.txt"], File "A") ]
                         (emits (header false o) w)) in
  organize_files false (o, w) = Raises (FileExistsError ["d"; "Images"]) (o1, w1)
  /\ length (moved_files o1) + length (errors o1) = 1.
Proof.
  cbv zeta.
  destruct (mkdir_error_aborts_run (init ["d"] None)
              (world_of [ (["d"], Dir); (["d"; "a.txt"], File "A");
                          (["d"; "photo.png"], File "P"); (["d"; "Images"], File "I") ]
                        no_faults)
              [(["d"; "a.txt"], "Documents")] [(["d"; "Images"], "Others")]
              ["d"; "photo.png"] "Images"
              (add_moved ("a.txt", "Documents") (init ["d"] None))
              (emit (Moved "a.txt" "Documents")
                 (set_fs [ (["d"], Dir); (["d"; "photo.png"], File "P");
                           (["d"; "Images"], File "I"); (["d"; "Documents"], Dir);
                           (["d"; "Documents"; "a.txt"], File "A") ]
                         (emits (header false (init ["d"] None))
                            (world_of [ (["d"], Dir); (["d"; "a.txt"], File "A");
                                        (["d"; "photo.png"], File "P");
                                        (["d"; "Images"], File "I") ] no_faults))))
              (FileExistsError ["d"; "Images"]))
    as (Hrun & outcomes & _ & _ & _ & Hcount); try reflexivity.
  split; [exact Hrun | exact Hcount].
Defined.

(** X6. When the source is a directory with no regular file directly in it
    (it is empty, or holds only directories), a run, dry or not, prints the
    header and "No files found to organize!" and returns: no summary is
    printed and the organizer, the file system and the clock are as before. *)
Theorem organize_nothing_to_do (dry_run : bool) (o : FileOrganizer) (w : World) :
  is_dir (source_dir o) (fs w) = true ->
  (forall q, In q (children (source_dir o) (fs w)) -> is_file q (fs w) = false) ->
  exists w' : World,
    organize_files dry_run (o, w) = Returns tt (o, w')
    /\ fs w' = fs w
    /\ ticks w' = ticks w
    /\ stdout w' =
       stdout w ++ [ Organizing dry_run (source_dir o);
                     DestinationLine (destination_dir o); NoFilesFound ].
Proof.
  intros Hdir Hnone.
  assert (Hnil : snapshot o w = []).
  { unfold snapshot, collect. now rewrite (filter_none _ _ Hnone). }
  rewrite (organize_files_empty dry_run o w Hdir Hnil).
  eexists. split; [reflexivity |]. repeat split.
Qed.

Lemma organize_nothing_to_do_witness :
  let o := init ["d"] None in
  let w := world_of [ (["d"], Dir); (["d"; "sub"], Dir);
                      (["d"; "sub"; "inner.txt"], File "I") ] no_faults in
  exists w' : World,
    organize_files false (o, w) = Returns tt (o, w')
    /\ fs w' = fs w
    /\ stdout w' = [ Organizing false ["d"]; DestinationLine ["d"]; NoFilesFound ].
Proof.
  cbv zeta.
  destruct (organize_nothing_to_do false (init ["d"] None)
              (world_of [ (["d"], Dir); (["d"; "sub"], Dir);
                          (["d"; "sub"; "inner.txt"], File "I") ] no_faults))
    as (w' & Hrun & Hfs & _ & Hout).
  - reflexivity.
  - intros q Hq. vm_compute in Hq. destruct Hq as [<- | []]. reflexivity.
  - exists w'. repeat split; assumption.
Defined.

(* ===================================================================== *)
(** ** The summary: counting and ordering the categories *)
(* ===================================================================== *)

Section Summary.

Lemma get_count_count_category (c c' : string) (cats : list (string * nat)) :
  get_count c' (count_category c cats) =
  get_count c' cats + (if String.eqb c c' then 1 else 0).
Proof.
  induction cats as [| [k n] cats IH]; simpl.
  - destruct (String.eqb c c'); reflexivity.
  - destruct (String.eqb k c) eqn:Ekc; simpl.
    + apply String.eqb_eq in Ekc. subst k.
      destruct (String.eqb c c'); lia.
    + rewrite IH. destruct (String.eqb k c') eqn:Ekc'; [| reflexivity].
      apply String.eqb_eq in Ekc'. subst k. rewrite String.eqb_sym, Ekc. lia.
Qed.

Lemma keys_count_category (c k : string) (cats : list (string * nat)) :
  In k (map fst (count_category c cats)) <-> k = c \/ In k (map fst cats).
Proof.
  induction cats as [| [k' n] cats IH]; simpl.
  - intuition.
  - destruct (String.eqb k' c) eqn:E; simpl.
    + apply String.eqb_eq in E. subst k'. intuition.
    + rewrite IH. intuition.
Qed.

Lemma nodup_count_category (c : string) (cats : list (string * nat)) :
  NoDup (map fst cats) -> NoDup (map fst (count_category c cats)).
Proof.
  induction cats as [| [k n] cats IH]; simpl; intro H.
  - constructor; [intros [] | constructor].
  - inversion H as [| x xs Hnotin Hnodup]; subst.
    destruct (String.eqb k c) eqn:E; simpl; [now constructor |].
    constructor; [| now apply IH].
    rewrite keys_count_category. intros [-> | Hin]; [| contradiction].
    now rewrite String.eqb_refl in E.
Qed.

Lemma sum_count_category (c : string) (cats : list (string * nat)) :
  list_sum (map snd (count_category c cats)) = S (list_sum (map snd cats)).
Proof.
  induction cats as [| [k n] cats IH]; simpl; [reflexivity |].
  destruct (String.eqb k c); simpl; [reflexivity | rewrite IH; lia].
Qed.

(** The loop of [print_summary] over the records, from any dict. *)
Lemma count_from (moved : list (string * string)) :
  forall acc : list (string * nat),
    let result := fold_left (fun categories r => count_category (snd r) categories)
                            moved acc in
    (NoDup (map fst acc) -> NoDup (map fst result))
    /\ (forall c, get_count c result
                  = get_count c acc + count_occ string_dec (map snd moved) c)
    /\ (forall c, In c (map fst result) <-> In c (map fst acc) \/ In c (map snd moved))
    /\ list_sum (map snd result) = list_sum (map snd acc) + length moved.
Proof.
  induction moved as [| [name c0] moved IH]; intro acc; simpl.
  - repeat split; intros; try tauto; lia.
  - destruct (IH (count_category c0 acc)) as (Hnodup & Hcount & Hkeys & Hsum).
    split; [intro H; apply Hnodup; now apply nodup_count_category |].
    split; [| split].
    + intro c. rewrite Hcount, get_count_count_category.
      destruct (string_dec c0 c) as [-> | Hne].
      * rewrite String.eqb_refl. lia.
      * apply String.eqb_neq in Hne. rewrite Hne. lia.
    + intro c. rewrite Hkeys, keys_count_category. intuition.
    + rewrite Hsum, sum_count_category. lia.
Qed.

Lemma insert_sorted_perm (item : string * nat) (items : list (string * nat)) :
  Permutation (insert_sorted item items) (item :: items).
Proof.
  induction items as [| i items IH]; simpl; [reflexivity |].
  destruct (String.leb (fst item) (fst i)); [reflexivity |].
  rewrite IH. apply perm_swap.
Qed.

Lemma insert_sorted_sorted (item : string * nat) (items : list (string * nat)) :
  Sorted label_le items -> Sorted label_le (insert_sorted item items).
Proof.
  induction items as [| i items IH]; simpl; intro H.
  - repeat constructor.
  - destruct (String.leb (fst item) (fst i)) eqn:E.
    + constructor; [exact H | constructor; exact E].
    + assert (Hle : label_le i item).
      { unfold label_le. destruct (String.leb_total (fst item) (fst i)); congruence. }
      inversion H as [| x xs Hsorted Hhd]; subst.
      constructor; [now apply IH |].
      destruct items as [| j items]; simpl; [now constructor |].
      destruct (String.leb (fst item) (fst j)); constructor; [exact Hle |].
      now inversion Hhd.
Qed.

End Summary.

(** X7. The dict that [print_summary] builds from the moved-files records
    has one entry per category that occurs in the records, the count of a
    category is the number of records with that category, and the counts
    add up to the number of records. *)
Theorem category_counts_are_right (moved : list (string * string)) :
  NoDup (map fst (count_categories moved))
  /\ (forall c, get_count c (count_categories moved)
                = count_occ string_dec (map snd moved) c)
  /\ (forall c, In c (map fst (count_categories moved)) <-> In c (map snd moved))
  /\ list_sum (map snd (count_categories moved)) = length moved.
Proof.
  destruct (count_from moved []) as (Hnodup & Hcount & Hkeys & Hsum).
  split; [apply Hnodup; constructor |].
  split; [exact Hcount |].
  split; [| exact Hsum].
  intro c. rewrite (Hkeys c). simpl. tauto.
Qed.

(** [sorted(categories.items())] keeps exactly the items it is given and
    puts them in ascending order of the labels. *)
Lemma sorted_spec (items : list (string * nat)) :
  Permutation (sorted items) items /\ Sorted label_le (sorted items).
Proof.
  unfold sorted. induction items as [| i items [IHp IHs]]; simpl.
  - split; constructor.
  - split.
    + rewrite insert_sorted_perm. now constructor.
    + now apply insert_sorted_sorted.
Qed.

Lemma list_sum_perm (l l' : list nat) : Permutation l l' -> list_sum l = list_sum l'.
Proof. induction 1; simpl; lia. Qed.

Lemma category_lines_app (ls1 ls2 : list line) :
  category_lines (ls1 ++ ls2) = category_lines ls1 ++ category_lines ls2.
Proof. apply flat_map_app. Qed.

Lemma category_lines_cons (l : line) (ls : list line) :
  category_lines (l :: ls) =
  match l with CategoryCount category count => [(category, count)] | _ => [] end
  ++ category_lines ls.
Proof. reflexivity. Qed.

Lemma category_lines_counts (items : list (string * nat)) :
  category_lines (map (fun item => CategoryCount (fst item) (snd item)) items) = items.
Proof.
  induction items as [| [c n] items IH]; simpl; [reflexivity | now rewrite IH].
Qed.

Lemma category_lines_errors (errs : list (string * string)) :
  category_lines (map (fun r => ErrorItem (fst r) (snd r)) errs) = [].
Proof. induction errs as [| r errs IH]; simpl; [reflexivity | exact IH]. Qed.

(** X8. [print_summary] returns and only prints: the organizer, the file
    system and the clock are as before.  Its per-category lines are the
    entries of the dict of counts in ascending order of the category
    labels, each category of a moved file once, and their counts add up to
    the number of moved files - also in a dry run, where earlier moves of
    the same organizer are still listed. *)
Theorem print_summary_lists_categories_in_order
    (dry_run : bool) (o : FileOrganizer) (w : World) :
  exists lines : list line,
    print_summary dry_run (o, w) = Returns tt (o, emits lines w)
    /\ fs (emits lines w) = fs w
    /\ ticks (emits lines w) = ticks w
    /\ Sorted label_le (category_lines lines)
    /\ Permutation (category_lines lines) (count_categories (moved_files o))
    /\ NoDup (map fst (category_lines lines))
    /\ (forall c, In c (map fst (category_lines lines)) <-> In c (map snd (moved_files o)))
    /\ list_sum (map snd (category_lines lines)) = length (moved_files o).
Proof.
  exists (summary_lines dry_run o).
  split; [apply print_summary_run |]. split; [reflexivity |]. split; [reflexivity |].
  assert (Hlines : category_lines (summary_lines dry_run o)
                   = sorted (count_categories (moved_files o))).
  { unfold summary_lines.
    destruct dry_run; [| destruct (errors o) as [| e0 errs] eqn:Ee];
      destruct (moved_files o) as [| m0 ms] eqn:Em;
      repeat (rewrite ?category_lines_app, ?category_lines_cons,
                      ?category_lines_errors, ?category_lines_counts;
              cbn [app]);
      reflexivity. }
  rewrite Hlines.
  destruct (sorted_spec (count_categories (moved_files o))) as [Hperm Hsorted].
  destruct (count_from (moved_files o) []) as (Hnodup & _ & Hkeys & Hsum).
  split; [exact Hsorted |]. split; [exact Hperm |].
  split.
  { apply (Permutation_NoDup (l := map fst (count_categories (moved_files o)))).
    - apply Permutation_map. now symmetry.
    - apply Hnodup. constructor. }
  split.
  { intro c.
    transitivity (In c (map fst (count_categories (moved_files o)))).
    - split; apply Permutation_in; apply Permutation_map;
        [exact Hperm | symmetry; exact Hperm].
    - unfold count_categories. rewrite (Hkeys c). simpl. tauto. }
  rewrite (list_sum_perm _ _ (Permutation_map snd Hperm)). exact Hsum.
Qed.

(* ===================================================================== *)
(** ** Names and their suffixes *)
(* ===================================================================== *)

Section Suffix.

Lemma rfind_last_dot (a e : string) :
  Str.rfind "."%char e = None ->
  Str.rfind "."%char (a ++ String "."%char e)%string = Some (String.length a).
Proof.
  intro He. induction a as [| x a IH]; simpl.
  - now rewrite He.
  - now rewrite IH.
Qed.

Lemma take_length_app (a s : string) : Str.take (String.length a) (a ++ s)%string = a.
Proof.
  induction a as [| x a IH]; simpl; [now destruct s | now rewrite IH].
Qed.

Lemma drop_length_app (a s : string) : Str.drop (String.length a) (a ++ s)%string = s.
Proof. induction a as [| x a IH]; simpl; [now destruct s | exact IH]. Qed.

Lemma suffix_index_last_dot (a e : string) :
  a <> ""%string -> e <> ""%string -> Str.rfind "."%char e = None ->
  Path.suffix_index (a ++ String "."%char e)%string = Some (String.length a).
Proof.
  intros Ha He Hdot.
  assert (H1 : (0 <? String.length a) = true).
  { apply Nat.ltb_lt. destruct a; simpl; [congruence | lia]. }
  assert (H2 : (String.length a <? String.length (a ++ String "."%char e) - 1) = true).
  { apply Nat.ltb_lt. rewrite append_length. destruct e; simpl; [congruence | lia]. }
  unfold Path.suffix_index. now rewrite (rfind_last_dot a e Hdot), H1, H2.
Qed.

End Suffix.

(** X9. Only what follows the last dot of the file name decides: for a name
    made of a non-empty part, a dot and a non-empty part without dot, the
    suffix is that dot and last part, the stem is everything before, and
    the category is the one the table gives for the lowered suffix,
    whatever dots and letters the stem has (archive.tar.GZ goes by .gz). *)
Theorem category_of_last_extension (dir : path) (a e : string) :
  a <> ""%string -> e <> ""%string -> Str.rfind "."%char e = None ->
  let p := dir </> (a ++ String "."%char e)%string in
  Path.suffix p = String "."%char e
  /\ Path.stem p = a
  /\ get_file_category p = hd "Others" (categories_of (String "."%char (Str.lower e)))
  /\ forall a' dir', a' <> ""%string ->
       get_file_category (dir' </> (a' ++ String "."%char e)%string) = get_file_category p.
Proof.
  intros Ha He Hdot p.
  assert (Hsuffix : forall d b, b <> ""%string ->
             Path.suffix (d </> (b ++ String "."%char e)%string) = String "."%char e).
  { intros d b Hb. unfold Path.suffix. rewrite name_join.
    rewrite (suffix_index_last_dot b e Hb He Hdot). apply drop_length_app. }
  split; [now apply Hsuffix |].
  split.
  { unfold p, Path.stem. rewrite name_join.
    rewrite (suffix_index_last_dot a e Ha He Hdot). apply take_length_app. }
  split.
  { rewrite get_file_category_first. unfold p. now rewrite Hsuffix. }
  intros a' dir' Ha'. unfold get_file_category, p. now rewrite !Hsuffix.
Qed.

Lemma category_of_last_extension_witness :
  Path.suffix ["d"; "archive.tar.GZ"] = ".GZ"
  /\ Path.stem ["d"; "archive.tar.GZ"] = "archive.tar"
  /\ get_file_category ["d"; "archive.tar.GZ"] = "Archives".
Proof.
  destruct (category_of_last_extension ["d"] "archive.tar" "GZ") as (A & B & C & _);
    try discriminate; try reflexivity.
  split; [exact A |]. split; [exact B |].
  etransitivity; [exact C | reflexivity].
Defined.

(** X10. A name without a dot, a name whose only dot is its first character
    (a hidden file such as .bashrc) and a name that ends with its last dot
    have no suffix: the stem is the whole name and the category is
    "Others". *)
Theorem category_without_extension (p : path) :
  Str.rfind "."%char (Path.name p) = None
  \/ Str.rfind "."%char (Path.name p) = Some 0
  \/ Str.rfind "."%char (Path.name p) = Some (String.length (Path.name p) - 1) ->
  Path.suffix p = ""%string
  /\ Path.stem p = Path.name p
  /\ get_file_category p = "Others".
Proof.
  intro H.
  assert (Hidx : Path.suffix_index (Path.name p) = None).
  { unfold Path.suffix_index. destruct H as [-> | [-> | ->]]; [reflexivity | reflexivity |].
    rewrite Nat.ltb_irrefl. now rewrite andb_false_r. }
  unfold get_file_category, Path.suffix, Path.stem. rewrite Hidx.
  repeat split.
Qed.

Lemma category_without_extension_witness :
  get_file_category ["home"; ".bashrc"] = "Others"
  /\ get_file_category ["home"; "Makefile"] = "Others"
  /\ get_file_category ["home"; "notes.txt."] = "Others".
Proof.
  split; [| split].
  - apply (category_without_extension ["home"; ".bashrc"]). right. left. reflexivity.
  - apply (category_without_extension ["home"; "Makefile"]). left. reflexivity.
  - apply (category_without_extension ["home"; "notes.txt."]). right. right. reflexivity.
Defined.

(* ===================================================================== *)
(** ** Output never feeds back *)
(* ===================================================================== *)

Section Output.

Lemma emit_prepend (l : line) (ls : list line) (w : World) :
  emit l (prepend ls w) = prepend ls (emit l w).
Proof. unfold emit, prepend; simpl. now rewrite app_assoc. Qed.

Lemma emits_prepend (k ls : list line) (w : World) :
  emits k (prepend ls w) = prepend ls (emits k w).
Proof. unfold emits, prepend; simpl. now rewrite app_assoc. Qed.

Lemma prepend_silent (w : World) : prepend (stdout w) (silent w) = w.
Proof. destruct w; unfold prepend, silent; simpl. now rewrite app_nil_r. Qed.

Lemma emits_as_prepend (k : list line) (w : World) :
  emits k w = prepend (stdout w ++ k) (silent w).
Proof. unfold emits, prepend, silent; simpl. now rewrite app_nil_r. Qed.

Lemma after_clock_prepend (cd p : path) (t : filesystem) (ls : list line) (w : World) :
  after_clock cd p (set_fs t (prepend ls w)) = prepend ls (after_clock cd p (set_fs t w)).
Proof. unfold after_clock; simpl. now destruct (exists_ _ _). Qed.

(** No turn of the loop reads what has been printed. *)
Lemma organize_one_prepend (dry_run : bool) (ls : list line) (f : path * string)
      (o : FileOrganizer) (w : World) :
  organize_one dry_run f (o, prepend ls w) =
  prepend_outcome ls (organize_one dry_run f (o, w)).
Proof.
  destruct f as [p c]. destruct dry_run.
  - rewrite !organize_one_dry. simpl. now rewrite emit_prepend.
  - destruct (organize_one_cases p c o w)
      as [(x & Hmk & H) | [(t1 & t2 & Hmk & Hmv & H) | (t1 & x & Hmk & Hmv & H)]];
      rewrite H.
    + exact (organize_one_mkdir_raises p c o (prepend ls w) x Hmk).
    + rewrite (organize_one_moved p c o (prepend ls w) t1 t2 Hmk Hmv).
      rewrite after_clock_prepend. simpl. now rewrite <- emit_prepend.
    + rewrite (organize_one_failed p c o (prepend ls w) t1 x Hmk Hmv).
      rewrite after_clock_prepend. simpl. now rewrite <- emit_prepend.
Qed.

Lemma for_each_prepend (dry_run : bool) (ls : list line) (files : list (path * string)) :
  forall (o : FileOrganizer) (w : World),
    for_each files (organize_one dry_run) (o, prepend ls w) =
    prepend_outcome ls (for_each files (organize_one dry_run) (o, w)).
Proof.
  induction files as [| f files IH]; intros o w; [reflexivity |].
  rewrite !for_each_step, organize_one_prepend.
  destruct (organize_one dry_run f (o, w)) as [[] [o1 w1] | x [o1 w1]]; simpl;
    [apply IH | reflexivity].
Qed.

(** A run does the same whatever has been printed before it. *)
Lemma organize_files_prepend (dry_run : bool) (ls : list line)
      (o : FileOrganizer) (w : World) :
  organize_files dry_run (o, prepend ls w) =
  prepend_outcome ls (organize_files dry_run (o, w)).
Proof.
  destruct (lookup (source_dir o) (fs w)) as [[content |] |] eqn:Hsrc.
  - assert (Hfile : is_file (source_dir o) (fs w) = true) by (apply is_file_lookup; eauto).
    rewrite (organize_files_source_is_file dry_run o w Hfile).
    rewrite (organize_files_source_is_file dry_run o (prepend ls w) Hfile).
    simpl. now rewrite emits_prepend.
  - assert (Hdir : is_dir (source_dir o) (fs w) = true) by now apply is_dir_lookup.
    assert (Hcases : snapshot o w = [] \/ snapshot o w <> [])
      by (destruct (snapshot o w); [now left | right; discriminate]).
    destruct Hcases as [Hnil | Hne].
    + rewrite (organize_files_empty dry_run o w Hdir Hnil).
      rewrite (organize_files_empty dry_run o (prepend ls w) Hdir Hnil).
      simpl. now rewrite emits_prepend.
    + rewrite (organize_files_run dry_run o w Hdir Hne).
      rewrite (organize_files_run dry_run o (prepend ls w) Hdir Hne).
      change (snapshot o (prepend ls w)) with (snapshot o w).
      rewrite emits_prepend, for_each_prepend.
      destruct (for_each (snapshot o w) (organize_one dry_run) _)
        as [[] [o1 w1] | x [o1 w1]]; simpl; [| reflexivity].
      rewrite !print_summary_run. simpl. now rewrite emits_prepend.
  - rewrite (organize_files_source_missing dry_run o w Hsrc).
    rewrite (organize_files_source_missing dry_run o (prepend ls w) Hsrc).
    simpl. now rewrite emit_prepend.
Qed.

(** A dry run ends with the organizer it started with, in the world it
    started in with some lines printed. *)
Lemma dry_run_only_prints (o : FileOrganizer) (w : World) :
  exists lines : list line,
    final (organize_files true (o, w)) = (o, emits lines w).
Proof.
  destruct (lookup (source_dir o) (fs w)) as [[content |] |] eqn:Hsrc.
  - rewrite organize_files_source_is_file by (apply is_file_lookup; eauto).
    simpl. eauto.
  - assert (Hdir : is_dir (source_dir o) (fs w) = true) by now apply is_dir_lookup.
    assert (Hcases : snapshot o w = [] \/ snapshot o w <> [])
      by (destruct (snapshot o w); [now left | right; discriminate]).
    destruct Hcases as [Hnil | Hne].
    + rewrite (organize_files_empty true o w Hdir Hnil). simpl. eauto.
    + rewrite (organize_files_run true o w Hdir Hne), for_each_dry, print_summary_run.
      simpl. rewrite !emits_emits. eauto.
  - rewrite (organize_files_source_missing true o w Hsrc). simpl.
    rewrite emit_as_emits. eauto.
Qed.

End Output.

(** X11. A dry run changes nothing but the output, whatever the source is
    (missing, a file, empty or not): the organizer, the file system, the
    clock and its position are as before.  A run that moves files does
    after a dry run exactly what it does without it - same outcome, same
    records, same file system, same lines printed - the output only
    starting later. *)
Theorem preview_does_not_change_the_run (o : FileOrganizer) (w : World) :
  let previewed := final (organize_files true (o, w)) in
  fst previewed = o
  /\ fs (snd previewed) = fs w
  /\ ticks (snd previewed) = ticks w
  /\ exists r0 : outcome unit,
       organize_files false (o, w) = prepend_outcome (stdout w) r0
       /\ organize_files false previewed
          = prepend_outcome (stdout (snd previewed)) r0.
Proof.
  cbv zeta. destruct (dry_run_only_prints o w) as [lines ->]. simpl.
  repeat split.
  exists (organize_files false (o, silent w)). split.
  - rewrite <- organize_files_prepend. now rewrite prepend_silent.
  - rewrite <- organize_files_prepend, <- emits_as_prepend. reflexivity.
Qed.

(* ===================================================================== *)
(** ** More on single turns *)
(* ===================================================================== *)

(** X12. The time stamp does not make the name unique.  Take one turn of
    the loop, in a run that moves files, for a regular file whose category
    directory exists, whose plain destination is taken, and whose
    time-stamped destination is taken too, by another regular file (a
    collision in the same second), the operating system not refusing the
    move to that path.  The move replaces that file: the turn records a
    move and no error, prints "Moved", reads the clock once, the moved
    file's content is at the time-stamped path in place of what was there,
    the file is gone from its old path, and no other path changes. *)
Theorem second_collision_overwrites
    (o : FileOrganizer) (w : World) (p : path) (c content earlier : string) :
  let cd := destination_dir o </> c in
  let new_name := timestamped_name p (strftime (clock w (ticks w))) in
  lookup p (fs w) = Some (File content) ->
  is_dir cd (fs w) = true ->
  exists_ (cd </> Path.name p) (fs w) = true ->
  lookup (cd </> new_name) (fs w) = Some (File earlier) ->
  p <> cd </> new_name ->
  faults w p (cd </> new_name) = None ->
  exists (o' : FileOrganizer) (w' : World),
    organize_one false (p, c) (o, w) = Returns tt (o', w')
    /\ moved_files o' = moved_files o ++ [(Path.name p, c)]
    /\ errors o' = errors o
    /\ stdout w' = stdout w ++ [Moved (Path.name p) c]
    /\ ticks w' = S (ticks w)
    /\ lookup (cd </> new_name) (fs w') = Some (File content)
    /\ lookup p (fs w') = None
    /\ (forall q, q <> p -> q <> cd </> new_name -> lookup q (fs w') = lookup q (fs w)).
Proof.
  intros cd new_name Hp Hcd Htaken Hearlier Hsrc Hfault.
  assert (Hdst : destination_at cd p (set_fs (fs w) w) = cd </> new_name).
  { unfold destination_at. simpl. now rewrite Htaken. }
  assert (Hclock : after_clock cd p (set_fs (fs w) w) = tick w).
  { unfold after_clock. simpl. rewrite Htaken. now destruct w. }
  assert (Hmove : shutil_move (faults w) p (destination_at cd p (set_fs (fs w) w)) (fs w)
                  = inr (write (cd </> new_name) (File content) (unlink p (fs w)))).
  { rewrite Hdst. apply shutil_move_file; try assumption.
    - unfold is_dir. now rewrite Hearlier.
    - now rewrite parent_join. }
  pose proof (organize_one_moved p c o w (fs w) _ (mkdir_exist_ok_present _ _ _ Hcd) Hmove)
    as Hstep.
  cbv zeta in Hstep. fold cd in Hstep. rewrite Hclock in Hstep.
  eexists _, _. split; [exact Hstep |]. simpl.
  split; [reflexivity |]. split; [reflexivity |]. split; [reflexivity |].
  split; [reflexivity |].
  split; [apply lookup_write_eq |].
  split; [rewrite lookup_write_ne by exact Hsrc; apply lookup_unlink_eq |].
  intros q Hq Hqdst. now rewrite lookup_write_ne, lookup_unlink_ne.
Qed.

Lemma second_collision_overwrites_witness :
  let o := init ["in"] (Some ["out"]) in
  let w := world_of (incoming ++ [(["out"; "Documents"; "x_20240131_235959.txt"],
                                   File "first")]) no_faults in
  exists (o' : FileOrganizer) (w' : World),
    organize_one false (["in"; "x.txt"], "Documents") (o, w) = Returns tt (o', w')
    /\ errors o' = []
    /\ lookup ["out"; "Documents"; "x_20240131_235959.txt"] (fs w') = Some (File "new")
    /\ lookup ["out"; "Documents"; "x.txt"] (fs w') = Some (File "old").
Proof.
  cbv zeta.
  destruct (second_collision_overwrites (init ["in"] (Some ["out"]))
              (world_of (incoming ++ [(["out"; "Documents"; "x_20240131_235959.txt"],
                                       File "first")]) no_faults)
              ["in"; "x.txt"] "Documents" "new" "first")
    as (o' & w' & Hstep & _ & He & _ & _ & Hnew & _ & Hframe);
    try reflexivity; try discriminate.
  exists o', w'. split; [exact Hstep |]. split; [exact He |]. split; [exact Hnew |].
  rewrite Hframe; [reflexivity | discriminate | discriminate].
Defined.

(** X13. The category directory is made before the move is tried.  Take
    one turn of the loop, in a run that moves files, in which the category
    directory does not exist, its creation succeeds and the move then
    raises.  The directory stays, newly created, beside the error record.
    A path that is neither the category directory nor inside it (two levels
    deep) is as before; and when the operating system leaves no partial
    copy of this file behind, every path but the category directory is as
    before. *)
Theorem failed_move_leaves_category_directory
    (o : FileOrganizer) (w : World) (p : path) (c : string) (t1 : filesystem) (e : exn) :
  let cd := destination_dir o </> c in
  lookup cd (fs w) = None ->
  mkdir_exist_ok (faults w) cd (fs w) = inr t1 ->
  shutil_move (faults w) p (destination_at cd p (set_fs t1 w)) t1 = inl e ->
  exists w' : World,
    organize_one false (p, c) (o, w) =
    Returns tt (add_error (Path.name p, exn_str e) o, w')
    /\ is_dir cd (fs w') = true
    /\ (forall q, q <> cd -> Path.parent q <> cd -> Path.parent (Path.parent q) <> cd ->
                  lookup q (fs w') = lookup q (fs w))
    /\ ((forall d r, faults w p d = Some r -> copied r = None) ->
        forall q, q <> cd -> lookup q (fs w') = lookup q (fs w)).
Proof.
  intros cd Hnew Hmk Hmv.
  pose proof (organize_one_failed p c o w t1 e Hmk Hmv) as Hstep.
  cbv zeta in Hstep. fold cd in Hstep.
  pose proof (mkdir_exist_ok_inr _ _ _ _ Hmk) as (Hcd & Hother & _).
  destruct (destination_at_join cd p (set_fs t1 w)) as [x Hx].
  eexists. split; [exact Hstep |]. simpl. rewrite Hx.
  split; [| split].
  - apply is_dir_lookup. rewrite interrupted_move_lookup; [exact Hcd | |].
    + intro E. symmetry in E. now apply join_neq in E.
    + intro E. apply (f_equal (@length _)) in E. rewrite !join_length in E. lia.
  - intros q Hq Hpar Hpar2. rewrite interrupted_move_lookup; [now apply Hother | |].
    + intro E. apply Hpar. rewrite E. apply parent_join.
    + intro E. apply Hpar2. rewrite E, !parent_join. reflexivity.
  - intros Hclean q Hq. rewrite interrupted_move_clean by exact Hclean.
    now apply Hother.
Qed.

Lemma failed_move_leaves_category_directory_witness :
  let o := init ["d"] None in
  let w := world_of [ (["d"], Dir); (["d"; "b.png"], File "B"); (["d"; "sub"], Dir) ]
                    (interrupt ["d"; "b.png"] 0) in
  exists w' : World,
    organize_one false (["d"; "b.png"], "Images") (o, w) =
    Returns tt (add_error ("b.png", "[Errno 28] No space left on device") o, w')
    /\ is_dir ["d"; "Images"] (fs w') = true
    /\ lookup ["d"; "sub"] (fs w') = Some Dir.
Proof.
  cbv zeta.
  destruct (failed_move_leaves_category_directory (init ["d"] None)
              (world_of [ (["d"], Dir); (["d"; "b.png"], File "B"); (["d"; "sub"], Dir) ]
                        (interrupt ["d"; "b.png"] 0))
              ["d"; "b.png"] "Images"
              [ (["d"], Dir); (["d"; "b.png"], File "B"); (["d"; "sub"], Dir);
                (["d"; "Images"], Dir) ]
              (OSError "[Errno 28] No space left on device"))
    as (w' & Hstep & Hdir & Hframe & _); try reflexivity.
  exists w'. split; [exact Hstep |]. split; [exact Hdir |].
  rewrite Hframe; [reflexivity | discriminate | discriminate | discriminate].
Defined.

(* ===================================================================== *)
(** ** The callers *)
(* ===================================================================== *)

Section Callers.

Lemma organize_one_keeps_dirs (dry_run : bool) (f : path * string)
      (o : FileOrganizer) (w : World) :
  source_dir (fst (final (organize_one dry_run f (o, w)))) = source_dir o
  /\ destination_dir (fst (final (organize_one dry_run f (o, w)))) = destination_dir o.
Proof.
  destruct f as [p c]. destruct dry_run; [split; reflexivity |].
  destruct (organize_one_cases p c o w)
    as [(x & _ & H) | [(t1 & t2 & _ & _ & H) | (t1 & x & _ & _ & H)]];
    rewrite H; split; reflexivity.
Qed.

Lemma for_each_keeps_dirs (dry_run : bool) (files : list (path * string)) :
  forall (o : FileOrganizer) (w : World),
    source_dir (fst (final (for_each files (organize_one dry_run) (o, w)))) = source_dir o
    /\ destination_dir (fst (final (for_each files (organize_one dry_run) (o, w))))
       = destination_dir o.
Proof.
  induction files as [| f files IH]; intros o w; [split; reflexivity |].
  rewrite for_each_step.
  pose proof (organize_one_keeps_dirs dry_run f o w) as Hstep.
  destruct (organize_one dry_run f (o, w)) as [[] [o1 w1] | x [o1 w1]]; simpl in *;
    [| exact Hstep].
  destruct (IH o1 w1) as [H1 H2]. destruct Hstep as [<- <-]. now split.
Qed.

(** A run never changes where the organizer reads and writes. *)
Lemma organize_files_keeps_dirs (dry_run : bool) (o : FileOrganizer) (w : World) :
  source_dir (fst (final (organize_files dry_run (o, w)))) = source_dir o
  /\ destination_dir (fst (final (organize_files dry_run (o, w)))) = destination_dir o.
Proof.
  destruct (lookup (source_dir o) (fs w)) as [[content |] |] eqn:Hsrc.
  - rewrite organize_files_source_is_file by (apply is_file_lookup; eauto).
    split; reflexivity.
  - assert (Hdir : is_dir (source_dir o) (fs w) = true) by now apply is_dir_lookup.
    assert (Hcases : snapshot o w = [] \/ snapshot o w <> [])
      by (destruct (snapshot o w); [now left | right; discriminate]).
    destruct Hcases as [Hnil | Hne].
    + rewrite (organize_files_empty dry_run o w Hdir Hnil). split; reflexivity.
    + rewrite (organize_files_run dry_run o w Hdir Hne).
      pose proof (for_each_keeps_dirs dry_run (snapshot o w) o
                    (emits (header dry_run o) w)) as H.
      destruct (for_each (snapshot o w) (organize_one dry_run) _)
        as [[] [o1 w1] | x [o1 w1]]; [rewrite print_summary_run |]; exact H.
  - rewrite organize_files_source_missing by exact Hsrc. split; reflexivity.
Qed.

End Callers.

(** X14. [main] makes a new organizer for each invocation.  Its source
    directory is the path of the source text; its destination directory is
    the path of the destination text when that text is given and not empty,
    and the source directory otherwise (the option left out, or given as
    the empty text); a run changes neither.  So what [main] reports is this
    invocation alone: in a dry run both lists are empty at the end; in a
    run that moves files, over a source that is a directory, and that
    returns, the lists are exactly the records of the listed files, one per
    file, in listing order. *)
Theorem main_reports_this_run_only
    (source : string) (destination : option string) (dry_run : bool) (w : World) :
  let o := fst (final (main source destination dry_run w)) in
  let listed := snapshot (init source destination) w in
  source_dir o = Path.of_text source
  /\ destination_dir o = match destination with
                         | Some text => if String.eqb text ""
                                        then Path.of_text source
                                        else Path.of_text text
                         | None => Path.of_text source
                         end
  /\ (dry_run = true -> moved_files o = [] /\ errors o = [])
  /\ (dry_run = false ->
      is_dir (Path.of_text source) (fs w) = true ->
      (exists s, main source destination dry_run w = Returns tt s) ->
      exists outcomes : list (option exn),
        length outcomes = length listed
        /\ moved_files o = successes listed outcomes
        /\ errors o = failures listed outcomes).
Proof.
  cbv zeta. unfold main.
  destruct (organize_files_keeps_dirs dry_run (init source destination) w) as [Hs Hd].
  split; [exact Hs |]. split.
  { rewrite Hd. destruct destination as [text |]; [| reflexivity].
    unfold init. simpl. unfold truthy. now destruct (String.eqb text ""). }
  split.
  - intros ->. destruct (dry_run_only_prints (init source destination) w) as [lines ->].
    split; reflexivity.
  - intros -> Hdir [s Hrun].
    set (o := init source destination) in *.
    assert (Hcases : snapshot o w = [] \/ snapshot o w <> [])
      by (destruct (snapshot o w); [now left | right; discriminate]).
    destruct Hcases as [Hnil | Hne].
    + rewrite (organize_files_empty false o w Hdir Hnil), Hnil. exists []. repeat split.
    + rewrite (organize_files_run false o w Hdir Hne) in Hrun |- *.
      destruct (for_each (snapshot o w) (organize_one false) _)
        as [[] [o1 w1] | x s1] eqn:Hloop; [| discriminate].
      rewrite print_summary_run. simpl.
      apply loop_records in Hloop as (outcomes & Hlen & _ & _ & Hm & He).
      exists outcomes. repeat split; assumption.
Qed.

Lemma main_reports_this_run_only_witness :
  let o := fst (final (main "d" (Some "") false
                            (world_of five_files (deny ["d"; "song.mp3"])))) in
  destination_dir o = ["d"]
  /\ exists outcomes : list (option exn),
       length outcomes = 5
       /\ moved_files o =
          successes (snapshot (init "d" (Some "")) (world_of five_files (deny ["d"; "song.mp3"])))
                    outcomes
       /\ errors o =
          failures (snapshot (init "d" (Some "")) (world_of five_files (deny ["d"; "song.mp3"])))
                   outcomes.
Proof.
  cbv zeta.
  destruct (main_reports_this_run_only "d" (Some "") false
              (world_of five_files (deny ["d"; "song.mp3"])))
    as (_ & Hdest & _ & Hrecords).
  split; [exact Hdest |].
  apply Hrecords.
  - reflexivity.
  - reflexivity.
  - exists (final (main "d" (Some "") false (world_of five_files (deny ["d"; "song.mp3"])))).
    vm_compute. reflexivity.
Defined.

(* ===================================================================== *)
(** ** File contents *)
(* ===================================================================== *)

Section Contents.

Lemma take_all (s : string) : Str.take (String.length s) s = s.
Proof. induction s as [| a s IH]; simpl; [reflexivity | now rewrite IH]. Qed.

Lemma take_take (n m : nat) (s : string) :
  Str.take n (Str.take m s) = Str.take (Nat.min n m) s.
Proof.
  revert m s. induction n as [| n IH]; intros m s; [reflexivity |].
  destruct m as [| m]; [reflexivity |].
  destruct s as [| a s]; simpl; [reflexivity | now rewrite IH].
Qed.

Lemma beginning_of_refl (s : string) : beginning_of s s.
Proof. exists (String.length s). symmetry. apply take_all. Qed.

Lemma beginning_of_trans (a b c : string) :
  beginning_of a b -> beginning_of b c -> beginning_of a c.
Proof. intros [n ->] [m ->]. exists (Nat.min n m). apply take_take. Qed.

Lemma organize_one_content (p : path) (c : string) (o : FileOrganizer) (w : World)
      (q : path) (content : string) :
  lookup q (fs (snd (final (organize_one false (p, c) (o, w))))) = Some (File content) ->
  exists q' original,
    lookup q' (fs w) = Some (File original) /\ beginning_of content original.
Proof.
  assert (Hmk : forall t1 r x,
             mkdir_exist_ok (faults w) (destination_dir o </> c) (fs w) = inr t1 ->
             lookup r t1 = Some (File x) -> lookup r (fs w) = Some (File x)).
  { intros t1 r x H Hr. apply mkdir_exist_ok_inr in H as (Hcd & Hother & _).
    destruct (path_eq_dec r (destination_dir o </> c)) as [-> | Hne]; [congruence |].
    now rewrite <- Hother. }
  destruct (organize_one_cases p c o w)
    as [(e & _ & H) | [(t1 & t2 & H1 & H2 & H) | (t1 & e & H1 & _ & H)]];
    rewrite H; simpl.
  - intro Hq. exists q, content. split; [exact Hq | apply beginning_of_refl].
  - apply shutil_move_inr in H2 as (real_dst & n & Hp & -> & _ & _).
    destruct (path_eq_dec q real_dst) as [-> | Hne].
    + rewrite lookup_write_eq. intro E. injection E as ->.
      exists p, content. split; [eauto | apply beginning_of_refl].
    + rewrite lookup_write_ne by exact Hne.
      destruct (path_eq_dec q p) as [-> | Hqp]; [now rewrite lookup_unlink_eq |].
      rewrite lookup_unlink_ne by exact Hqp. intro Hq.
      exists q, content. split; [eauto | apply beginning_of_refl].
  - destruct (interrupted_move_spec (faults w) p
                (destination_at (destination_dir o </> c) p (set_fs t1 w)) t1)
      as [-> | (real_dst & r & n & original & _ & _ & Hp & _ & _ & ->)].
    + intro Hq. exists q, content. split; [eauto | apply beginning_of_refl].
    + destruct (path_eq_dec q real_dst) as [-> | Hne].
      * rewrite lookup_write_eq. intro E. injection E as <-.
        exists p, original. split; [eauto | now exists n].
      * rewrite lookup_write_ne by exact Hne. intro Hq.
        exists q, content. split; [eauto | apply beginning_of_refl].
Qed.

Lemma for_each_content (files : list (path * string)) :
  forall (o : FileOrganizer) (w : World) (q : path) (content : string),
    lookup q (fs (snd (final (for_each files (organize_one false) (o, w)))))
    = Some (File content) ->
    exists q' original,
      lookup q' (fs w) = Some (File original) /\ beginning_of content original.
Proof.
  induction files as [| [p c] files IH]; intros o w q content.
  - simpl. intro Hq. exists q, content. split; [exact Hq | apply beginning_of_refl].
  - rewrite for_each_step.
    pose proof (organize_one_content p c o w) as Hstep.
    destruct (organize_one false (p, c) (o, w)) as [[] [o1 w1] | e [o1 w1]]; simpl in *.
    + intro H. apply IH in H as (q1 & mid & H1 & Hb1).
      apply Hstep in H1 as (q0 & original & H0 & Hb0).
      exists q0, original. split; [exact H0 | exact (beginning_of_trans _ _ _ Hb1 Hb0)].
    + apply Hstep.
Qed.

End Contents.

(** X15. A run never writes file content of its own: however it ends, every
    regular file in the file system afterwards holds the content of a
    regular file that was there before, or a beginning of it (the file was
    left alone or moved, or is the copy that an interrupted move left at
    the destination). *)
Theorem run_invents_no_content (dry_run : bool) (o : FileOrganizer) (w : World)
    (q : path) (content : string) :
  lookup q (fs (snd (final (organize_files dry_run (o, w))))) = Some (File content) ->
  exists q' original,
    lookup q' (fs w) = Some (File original) /\ beginning_of content original.
Proof.
  assert (Hsame : lookup q (fs w) = Some (File content) ->
                  exists q' original,
                    lookup q' (fs w) = Some (File original)
                    /\ beginning_of content original).
  { intro Hq. exists q, content. split; [exact Hq | apply beginning_of_refl]. }
  destruct (lookup (source_dir o) (fs w)) as [[x |] |] eqn:Hsrc.
  - rewrite organize_files_source_is_file by (apply is_file_lookup; eauto).
    exact Hsame.
  - assert (Hdir : is_dir (source_dir o) (fs w) = true) by now apply is_dir_lookup.
    assert (Hcases : snapshot o w = [] \/ snapshot o w <> [])
      by (destruct (snapshot o w); [now left | right; discriminate]).
    destruct Hcases as [Hnil | Hne].
    + rewrite (organize_files_empty dry_run o w Hdir Hnil). exact Hsame.
    + rewrite (organize_files_run dry_run o w Hdir Hne).
      destruct dry_run.
      * rewrite for_each_dry, print_summary_run. exact Hsame.
      * pose proof (for_each_content (snapshot o w) o (emits (header false o) w) q content)
          as H.
        destruct (for_each (snapshot o w) (organize_one false) _)
          as [[] [o1 w1] | e [o1 w1]]; [rewrite print_summary_run |]; exact H.
  - rewrite organize_files_source_missing by exact Hsrc. exact Hsame.
Qed.

Lemma run_invents_no_content_witness :
  let w := world_of [ (["d"], Dir); (["d"; "b.png"], File "BYTES") ]
                    (interrupt ["d"; "b.png"] 2) in
  let w' := snd (final (organize_files false (init ["d"] None, w))) in
  lookup ["d"; "Images"; "b.png"] (fs w') = Some (File "BY")
  /\ exists q' original,
       lookup q' (fs w) = Some (File original) /\ beginning_of "BY" original.
Proof.
  cbv zeta.
  assert (Hleft : lookup ["d"; "Images"; "b.png"]
                    (fs (snd (final (organize_files false
                       (init ["d"] None,
                        world_of [ (["d"], Dir); (["d"; "b.png"], File "BYTES") ]
                                 (interrupt ["d"; "b.png"] 2))))))
                  = Some (File "BY")) by (vm_compute; reflexivity).
  split; [exact Hleft |].
  exact (run_invents_no_content false (init ["d"] None)
           (world_of [ (["d"], Dir); (["d"; "b.png"], File "BYTES") ]
                     (interrupt ["d"; "b.png"] 2))
           ["d"; "Images"; "b.png"] "BY" Hleft).
Defined.
